(** * Bazel launcher utilities (src/tools/launcher/util/launcher_util.cc)

    A shallow embedding of the helper routines of the Windows launcher:
    argument escaping, the executable-suffix helpers, environment access,
    random names, last-error formatting and the fatal path conversion.

    Strings are Rocq strings (one [ascii] per C++ [char]); [size_t], [DWORD]
    and [unsigned int] values are integers in [Z] with the wrap-around of
    the source written out; the process state a routine touches (standard
    error, the environment block, the last-error slot, the random source)
    is passed explicitly. *)

From Stdlib Require Import ZArith Lia List DecimalString.
From Stdlib Require Import Ascii.
From Stdlib Require String.
From stdpp Require Import gmap strings.

Local Open Scope Z_scope.

(** ** Characters the launcher singles out *)

Definition NUL : ascii := Ascii.ascii_of_nat 0.
Definition newline : ascii := Ascii.ascii_of_nat 10.
Definition space : ascii := Ascii.ascii_of_nat 32.
Definition dquote : ascii := Ascii.ascii_of_nat 34.
Definition backslash : ascii := Ascii.ascii_of_nat 92.

(** ** The C++ runtime: [size_t], [std::string], [std::ostringstream] *)

Module Cxx.

(** [size_t] is 64 bits wide on the launcher's target. *)
Definition SIZE_MODULUS : Z := 2 ^ 64.

(** [string::npos] is [static_cast<size_t>(-1)]. *)
Definition npos : Z := SIZE_MODULUS - 1.

(** Subtraction at type [size_t]: the result wraps modulo [2^64]. *)
Definition size_sub (a b : Z) : Z := (a - b) mod SIZE_MODULUS.

(** [s.size()], [s.length()]. *)
Definition size (s : string) : Z := Z.of_nat (String.length s).

(** A [std::string] has fewer than [npos] characters ([max_size()] is
    below [npos]); a Rocq string may be longer, so statements about the
    code carry this as a hypothesis. *)
Definition representable (s : string) : Prop := size s < npos.

(** [s.find(str, pos)]: the lowest position [>= pos] at which [str]
    occurs in [s], [npos] if there is none; a start position past the end
    finds nothing. *)
Definition find (s str : string) (pos : Z) : Z :=
  if size s <? pos then npos
  else match String.index (Z.to_nat pos) str s with
       | Some xpos => Z.of_nat xpos
       | None => npos
       end.

(** [s.find_first_of(c)], scanning from position 0. *)
Fixpoint find_first_of_from (s : string) (c : ascii) (i : Z) : Z :=
  match s with
  | EmptyString => npos
  | String a s' =>
      if Ascii.eqb a c then i else find_first_of_from s' c (i + 1)
  end.

Definition find_first_of (s : string) (c : ascii) : Z :=
  find_first_of_from s c 0.

(** [s.substr(pos, n)]: the characters [pos, pos + min(n, size - pos))].
    ([pos > size] throws in C++; the launcher only calls it with
    [pos = 0].) *)
Definition substr (s : string) (pos n : Z) : string :=
  String.substring (Z.to_nat pos) (Z.to_nat (Z.min n (size s - pos))) s.

(** What a C function sees of [s.c_str()], and what assigning a [char*]
    to a [std::string] reads: the characters before the first NUL. *)
Fixpoint c_str (s : string) : string :=
  match s with
  | EmptyString => EmptyString
  | String a s' =>
      if Ascii.eqb a NUL then EmptyString else String a (c_str s')
  end.

(** [strlen]. *)
Definition strlen (s : string) : Z := size (c_str s).

(** An [ostringstream] is the text written to it so far. *)
Definition ostringstream : Type := string.

Definition put_char (os : ostringstream) (c : ascii) : ostringstream :=
  String.append os (String c EmptyString).

Definition put_str (os : ostringstream) (s : string) : ostringstream :=
  String.append os s.

(** [os << n] for an unsigned integer: its decimal digits. *)
Definition put_unsigned (os : ostringstream) (n : Z) : ostringstream :=
  String.append os (NilZero.string_of_uint (N.to_uint (Z.to_N n))).

(** [w.c_str()] as a wide-character C function reads it: the code
    units before the first 0. *)
Fixpoint w_c_str (w : list Z) : list Z :=
  match w with
  | [] => []
  | u :: w' => if u =? 0 then [] else u :: w_c_str w'
  end.

(** [s[i]]; [None] stands for an access outside the array. *)
Definition at_index (s : string) (i : Z) : option ascii :=
  if (0 <=? i) && (i <? size s) then String.get (Z.to_nat i) s else None.

End Cxx.

(** ** The process: standard error and termination *)

Module Proc.

Record process : Type := { stderr : string }.

(** A call either returns to its caller or ends the process. *)
Inductive result (A : Type) : Type :=
| Returned (a : A) (p : process)
| Exited (status : Z) (p : process).
Arguments Returned {A} a p.
Arguments Exited {A} status p.

Definition proc (A : Type) : Type := process -> result A.

Definition ret {A : Type} (a : A) : proc A := fun p => Returned a p.

Definition bind {A B : Type} (c : proc A) (k : A -> proc B) : proc B :=
  fun p =>
    match c p with
    | Returned a p' => k a p'
    | Exited status p' => Exited status p'
    end.

(** [exit(status)] never returns. *)
Definition exit {A : Type} (status : Z) : proc A := fun p => Exited status p.

Definition write_stderr (s : string) : proc unit :=
  fun p => Returned tt {| stderr := String.append (stderr p) s |}.

(** [fputs(s, stderr)], [fputc(c, stderr)]. *)
Definition fputs (s : string) : proc unit := write_stderr (Cxx.c_str s).
Definition fputc (c : ascii) : proc unit :=
  write_stderr (String c EmptyString).

(** The text [vfprintf] produces. Only the [%s] conversion is modelled,
    the one the launcher's own format strings use; it prints its
    argument as a C string. *)
Fixpoint format_text (format : string) (ap : list string) : string :=
  match format with
  | EmptyString => EmptyString
  | String a rest =>
      match rest with
      | String b rest' =>
          if Ascii.eqb a (Ascii.ascii_of_nat 37) && Ascii.eqb b (Ascii.ascii_of_nat 115)
          then match ap with
               | arg :: ap' => String.append (Cxx.c_str arg) (format_text rest' ap')
               | nil => format_text rest' nil
               end
          else String a (format_text rest ap)
      | EmptyString => String a EmptyString
      end
  end.

Definition vfprintf (format : string) (ap : list string) : proc unit :=
  write_stderr (format_text (Cxx.c_str format) ap).

(** The format strings [format_text] is exact on: ordinary characters
    and [%s] conversions, nothing else after a percent sign.
    [conversions format] counts the [%s] of such a format and is [None]
    for any other format (a [%%], a [%d], a width, a percent sign at the
    end). *)
Fixpoint conversions (format : string) : option nat :=
  match format with
  | EmptyString => Some O
  | String a rest =>
      if Ascii.eqb a (Ascii.ascii_of_nat 37)
      then match rest with
           | String b rest' =>
               if Ascii.eqb b (Ascii.ascii_of_nat 115)
               then option_map S (conversions rest')
               else None
           | EmptyString => None
           end
      else conversions rest
  end.

End Proc.

(** [c1 ;; c2] and [x ← c1; c2] sequence two calls. *)
Global Instance proc_ret : MRet Proc.proc := @Proc.ret.
Global Instance proc_bind : MBind Proc.proc :=
  fun A B k c => Proc.bind c k.

(** ** The platform *)

(** The Win32 and C runtime calls the launcher makes are not part of the
    repository. Each is modelled by the contract the platform documents
    for it (return value and what it stores through its out-parameter);
    what the platform decides on its own (which codes have a message,
    which assignments it accepts, which values the generator gives) is a
    field of the state, so that statements hold for every such choice. *)

Module Win32.

(** [DWORD] and [unsigned int] are 32 bits wide. *)
Definition DWORD_MODULUS : Z := 2 ^ 32.

(** *** The last-error slot and the system message table *)

(** [messages code] is the text the system has for [code], if any. *)
Record error_state : Type := {
  last_error : Z;
  messages : Z -> option string
}.

Definition GetLastError (e : error_state) : Z :=
  last_error e mod DWORD_MODULUS.

(** [FormatMessageA] with [FORMAT_MESSAGE_ALLOCATE_BUFFER |
    FORMAT_MESSAGE_FROM_SYSTEM]: on success it allocates the message,
    stores its address through [lpBuffer] and returns its length; when
    the system has no message for the code it returns 0 and stores
    nothing. The second component is what was stored. *)
Definition FormatMessageA (e : error_state) (dwMessageId : Z)
  : Z * option string :=
  match messages e dwMessageId with
  | Some text => (Cxx.size (Cxx.c_str text), Some (Cxx.c_str text))
  | None => (0, None)
  end.

(** *** The environment block *)

(** [variables] maps the names that are set to their values;
    [accepts name value] tells whether the system lets [name] be set
    to [value]. *)
Record environment : Type := {
  variables : gmap string string;
  accepts : string -> string -> bool
}.

(** [GetEnvironmentVariableA(lpName, lpBuffer, nSize)]: 0 when the
    variable is not set; when the value and its terminator fit in
    [nSize] characters, the value is stored and its length (without the
    terminator) returned; otherwise the size the buffer would need is
    returned and the buffer is left as it was. The second component is
    what was stored. *)
Definition GetEnvironmentVariableA (lpName : string) (nSize : Z)
    (env : environment) : Z * option string :=
  match variables env !! lpName with
  | None => (0, None)
  | Some v =>
      if Cxx.size v <? nSize then (Cxx.size v, Some v)
      else (Cxx.size v + 1, None)
  end.

(** [SetEnvironmentVariableA(lpName, lpValue)] with a non-null value. *)
Definition SetEnvironmentVariableA (lpName lpValue : string)
    (env : environment) : bool * environment :=
  if accepts env lpName lpValue
  then (true, {| variables := <[lpName := lpValue]> (variables env);
                 accepts := accepts env |})
  else (false, env).

(** The environment without [lpName] (what passing a null value to
    [SetEnvironmentVariableA] leaves). *)
Definition remove_variable (lpName : string) (env : environment)
  : environment :=
  {| variables := delete lpName (variables env); accepts := accepts env |}.

(** An empty environment block on a system that accepts every
    assignment. *)
Definition empty_environment : environment :=
  {| variables := ∅; accepts := fun _ _ => true |}.

(** The platform matches variable names without regard to letter
    case. For a name made of ASCII characters only, [fold_case] gives the
    form that decides which variable it names: two such names are the
    same variable exactly when their folded forms are equal. *)
Definition upcase (c : ascii) : ascii :=
  let n := Ascii.nat_of_ascii c in
  if ((97 <=? n) && (n <=? 122))%nat then Ascii.ascii_of_nat (n - 32) else c.

Fixpoint fold_case (name : string) : string :=
  match name with
  | EmptyString => EmptyString
  | String c name' => String (upcase c) (fold_case name')
  end.

Definition is_ascii (name : string) : bool :=
  forallb (fun c => (Ascii.nat_of_ascii c <? 128)%nat)
    (String.list_ascii_of_string name).

(** Every value in the block is a C string: it holds no NUL. *)
Definition holds_c_strings (env : environment) : Prop :=
  forall name v : string, variables env !! name = Some v -> Cxx.c_str v = v.

(** *** The file system *)

(** [winnt.h]: [INVALID_FILE_ATTRIBUTES] is [(DWORD)-1] and
    [FILE_ATTRIBUTE_DIRECTORY] is [0x10]. *)
Definition INVALID_FILE_ATTRIBUTES : Z := DWORD_MODULUS - 1.
Definition FILE_ATTRIBUTE_DIRECTORY : Z := 16.

(** [entries] maps the paths that name something to its attribute
    bits; [removable path] tells whether the system lets the file at
    [path] be deleted (it is not in use, not read-only, ...). *)
Record file_system : Type := {
  entries : gmap (list Z) Z;
  removable : list Z -> bool
}.

(** [GetFileAttributesW(lpFileName)]: the attributes of the entry, or
    [INVALID_FILE_ATTRIBUTES] when there is none. *)
Definition GetFileAttributesW (lpFileName : list Z) (fs : file_system) : Z :=
  match entries fs !! lpFileName with
  | Some attributes => attributes mod DWORD_MODULUS
  | None => INVALID_FILE_ATTRIBUTES
  end.

(** [DeleteFileW(lpFileName)]: removes an existing entry that is not a
    directory when the system allows it, and fails otherwise. *)
Definition DeleteFileW (lpFileName : list Z) (fs : file_system)
  : bool * file_system :=
  let attributes := GetFileAttributesW lpFileName fs in
  if negb (attributes =? INVALID_FILE_ATTRIBUTES)
     && (Z.land attributes FILE_ATTRIBUTE_DIRECTORY =? 0)
     && removable fs lpFileName
  then (true, {| entries := delete lpFileName (entries fs);
                 removable := removable fs |})
  else (false, fs).

(** *** The random source *)

(** [draws i] is the [i]-th value the generator behind [rand_s] gives;
    [drawn] counts the values taken so far. *)
Record random_source : Type := {
  draws : nat -> Z;
  drawn : nat
}.

(** [rand_s(&x)] stores the next value, an [unsigned int]. *)
Definition rand_s (g : random_source) : Z * random_source :=
  (draws g (drawn g) mod DWORD_MODULUS,
   {| draws := draws g; drawn := S (drawn g) |}).

End Win32.

(** A call whose behaviour the language leaves open (it reads memory that
    was never written) has no value. *)
Inductive outcome (A : Type) : Type :=
| Value (a : A)
| Undefined.
Arguments Value {A} a.
Arguments Undefined {A}.

(** ** namespace bazel::launcher *)

Module launcher.

(** [GetLastErrorString]. [message_buffer] is declared without an
    initial value and the count [FormatMessageA] returns is never
    looked at: when the call stores nothing, [result << message_buffer]
    reads a pointer that was never written. *)
Definition GetLastErrorString (e : Win32.error_state) : outcome string :=
  let last_error := Win32.GetLastError e in
  if last_error =? 0 then Value EmptyString
  else
    let '(size, message_buffer) := Win32.FormatMessageA e last_error in
    match message_buffer with
    | Some text =>
        let result : Cxx.ostringstream := EmptyString in
        let result := Cxx.put_str result "(error: " in
        let result := Cxx.put_unsigned result last_error in
        let result := Cxx.put_str result "): " in
        let result := Cxx.put_str result text in
        Value result
    | None => Undefined
    end.

(** [die(format, ...)]. *)
Definition die (format : string) (ap : list string) : Proc.proc unit :=
  Proc.fputs "LAUNCHER ERROR: " ;;
  Proc.vfprintf format ap ;;
  Proc.fputc newline ;;
  Proc.exit 1.

(** [PrintError(format, ...)]. *)
Definition PrintError (format : string) (ap : list string) : Proc.proc unit :=
  Proc.fputs "LAUNCHER ERROR: " ;;
  Proc.vfprintf format ap ;;
  Proc.fputc newline.

(** A [std::wstring]: its 16-bit code units. *)
Definition wstring : Type := list Z.

Section PathConversion.

(** [blaze_util::AsAbsoluteWindowsPath(path, &wpath)] lives in
    src/main/cpp/util, outside this unit: it is taken as given. From
    the path and the current [wpath] it yields its verdict and the
    [wpath] it leaves behind. *)
Variable blaze_util_AsAbsoluteWindowsPath :
  string -> wstring -> bool * wstring.

(** [AsAbsoluteWindowsPath]. *)
Definition AsAbsoluteWindowsPath (path : string) : Proc.proc wstring :=
  let wpath : wstring := [] in
  let '(converted, wpath) := blaze_util_AsAbsoluteWindowsPath path wpath in
  (if negb converted
   then die "Couldn't convert %s to absoulte Windows path." [path]
   else mret tt) ;;
  mret wpath.

(** [DoesFilePathExist]. *)
Definition DoesFilePathExist (path : string) (fs : Win32.file_system)
  : Proc.proc bool :=
  wpath ← AsAbsoluteWindowsPath path;
  let dwAttrib := Win32.GetFileAttributesW (Cxx.w_c_str wpath) fs in
  mret (negb (dwAttrib =? Win32.INVALID_FILE_ATTRIBUTES)
        && (Z.land dwAttrib Win32.FILE_ATTRIBUTE_DIRECTORY =? 0)).

(** [DoesDirectoryPathExist]. *)
Definition DoesDirectoryPathExist (path : string) (fs : Win32.file_system)
  : Proc.proc bool :=
  wpath ← AsAbsoluteWindowsPath path;
  let dwAttrib := Win32.GetFileAttributesW (Cxx.w_c_str wpath) fs in
  mret (negb (dwAttrib =? Win32.INVALID_FILE_ATTRIBUTES)
        && negb (Z.land dwAttrib Win32.FILE_ATTRIBUTE_DIRECTORY =? 0)).

(** [DeleteFileByPath]: the verdict and the file system left. *)
Definition DeleteFileByPath (path : string) (fs : Win32.file_system)
  : Proc.proc (bool * Win32.file_system) :=
  wpath ← AsAbsoluteWindowsPath path;
  mret (Win32.DeleteFileW (Cxx.w_c_str wpath) fs).

End PathConversion.

(** [GetBinaryPathWithoutExtension]. *)
Definition GetBinaryPathWithoutExtension (binary : string) : string :=
  if negb (Cxx.find binary ".exe" (Cxx.size_sub (Cxx.size binary) 4)
           =? Cxx.npos)
  then Cxx.substr binary 0 (Cxx.size_sub (Cxx.size binary) 4)
  else binary.

(** [GetBinaryPathWithExtension]. *)
Definition GetBinaryPathWithExtension (binary : string) : string :=
  String.append (GetBinaryPathWithoutExtension binary) ".exe".

(** The [while] loop of [GetEscapedArgument]: [it] is what the iterator
    has not read yet. *)
Fixpoint GetEscapedArgument_loop (it : string)
    (escaped_arg : Cxx.ostringstream) : Cxx.ostringstream :=
  match it with
  | EmptyString => escaped_arg
  | String ch it' =>
      GetEscapedArgument_loop it'
        (if Ascii.eqb ch dquote
         then Cxx.put_str escaped_arg (String backslash (String dquote EmptyString))
         else if Ascii.eqb ch backslash
         then Cxx.put_str escaped_arg (String backslash (String backslash EmptyString))
         else Cxx.put_char escaped_arg ch)
  end.

(** [GetEscapedArgument]. *)
Definition GetEscapedArgument (argument : string) : string :=
  let escaped_arg : Cxx.ostringstream := EmptyString in
  let has_space := negb (Cxx.find_first_of argument space =? Cxx.npos) in
  let escaped_arg :=
    if has_space then Cxx.put_char escaped_arg dquote else escaped_arg in
  let escaped_arg := GetEscapedArgument_loop argument escaped_arg in
  let escaped_arg :=
    if has_space then Cxx.put_char escaped_arg dquote else escaped_arg in
  escaped_arg.

Definition BUFFER_SIZE : Z := 32767.

(** [GetEnv(env_name, value)]: the verdict and the contents of [*value]
    afterwards. [buffer] starts out unwritten; when the platform call
    answers with a required size instead of storing the value,
    [*value = buffer] reads it all the same. *)
Definition GetEnv (env_name : string) (value : string)
    (env : Win32.environment) : outcome (bool * string) :=
  let '(stored, buffer) :=
    Win32.GetEnvironmentVariableA (Cxx.c_str env_name) BUFFER_SIZE env in
  if stored =? 0 then Value (false, value)
  else match buffer with
       | Some text => Value (true, Cxx.c_str text)
       | None => Undefined
       end.

(** [SetEnv(env_name, value)]: the verdict and the environment left. *)
Definition SetEnv (env_name value : string) (env : Win32.environment)
  : bool * Win32.environment :=
  Win32.SetEnvironmentVariableA (Cxx.c_str env_name) (Cxx.c_str value) env.

Definition alphabet : string :=
  "ABCDEFGHIJKLMNOPQRSTUVWXYZabcdefghijklmnopqrstuvwxyz0123456789".

(** The [for] loop of [GetRandomStr] with [remaining = len - i] rounds
    to go. *)
Fixpoint GetRandomStr_loop (remaining : nat) (rand_str : Cxx.ostringstream)
    (g : Win32.random_source) : outcome string * Win32.random_source :=
  match remaining with
  | O => (Value rand_str, g)
  | S remaining' =>
      let '(x, g') := Win32.rand_s g in
      match Cxx.at_index alphabet (x mod Cxx.strlen alphabet) with
      | Some c => GetRandomStr_loop remaining' (Cxx.put_char rand_str c) g'
      | None => (Undefined, g')
      end
  end.

(** [GetRandomStr(len)]. *)
Definition GetRandomStr (len : nat) (g : Win32.random_source)
  : outcome string * Win32.random_source :=
  GetRandomStr_loop len EmptyString g.

End launcher.

(** ** The contracts, in the words of the specification *)

Module Spec.

(** [x] contains the character [c]. *)
Definition contains (c : ascii) (x : string) : bool :=
  existsb (Ascii.eqb c) (String.list_ascii_of_string x).

(** The transform of one character: a double quote becomes backslash,
    double quote; a backslash becomes two backslashes; any other
    character stays as it is. *)
Definition escape_char (c : ascii) : string :=
  if Ascii.eqb c dquote then String backslash (String dquote EmptyString)
  else if Ascii.eqb c backslash
  then String backslash (String backslash EmptyString)
  else String c EmptyString.

(** The character-by-character transform of [x]. *)
Fixpoint escape_body (x : string) : string :=
  match x with
  | EmptyString => EmptyString
  | String c x' => String.append (escape_char c) (escape_body x')
  end.

(** A double quote if [x] contains a space, nothing otherwise. *)
Definition quote_if_space (x : string) : string :=
  if contains space x then String dquote EmptyString else EmptyString.

(** The trailing four characters of [p] are exactly [.exe]. *)
Definition has_exe_suffix (p : string) : bool :=
  (4 <=? String.length p)%nat
  && String.eqb (String.substring (String.length p - 4) 4 p) ".exe".

(** [p] without its last four characters. *)
Definition drop_last_four (p : string) : string :=
  String.substring 0 (String.length p - 4) p.

(** [stripExecutableExtension]. *)
Definition strip (p : string) : string :=
  if has_exe_suffix p then drop_last_four p else p.

(** The [i]-th character of the fixed alphabet, counted from 0:
    [A]-[Z], then [a]-[z], then [0]-[9]. *)
Definition alphabet_char (i : Z) : option ascii :=
  if (0 <=? i) && (i <? 26) then Some (Ascii.ascii_of_nat (Z.to_nat (65 + i)))
  else if (26 <=? i) && (i <? 52) then Some (Ascii.ascii_of_nat (Z.to_nat (97 + (i - 26))))
  else if (52 <=? i) && (i <? 62) then Some (Ascii.ascii_of_nat (Z.to_nat (48 + (i - 52))))
  else None.

(** [c] is one of the 62 alphanumeric characters. *)
Definition alphanumeric (c : ascii) : bool :=
  let n := Z.of_nat (Ascii.nat_of_ascii c) in
  ((65 <=? n) && (n <=? 90)) || ((97 <=? n) && (n <=? 122))
  || ((48 <=? n) && (n <=? 57)).

(** The value [rand_s] stores in round [i] of a call that starts with
    the source [g]. *)
Definition draw (g : Win32.random_source) (i : nat) : Z :=
  Win32.draws g (Win32.drawn g + i)%nat mod Win32.DWORD_MODULUS.

(** Standard error and all, the state the process ends in when the
    conversion of [path] fails in state [p]. *)
Definition conversion_failed (path : string) (p : Proc.process)
  : Proc.process :=
  {| Proc.stderr :=
       String.append (Proc.stderr p)
         (String.append "LAUNCHER ERROR: "
            (String.append
               (String.append "Couldn't convert "
                  (String.append (Cxx.c_str path)
                     " to absoulte Windows path."))
               (String newline EmptyString))) |}.

(** The attributes the platform reports for [path], once converted by
    [convert]. *)
Definition attributes_of
    (convert : string -> launcher.wstring -> bool * launcher.wstring)
    (path : string) (fs : Win32.file_system) : Z :=
  Win32.GetFileAttributesW (Cxx.w_c_str (snd (convert path []))) fs.

End Spec.

(** * Properties *)

(** ** Strings *)

Section StringFacts.

Lemma append_cons (a : ascii) (s t : string) :
  String.append (String a s) t = String a (String.append s t).
Proof. reflexivity. Qed.

Lemma append_empty_l (s : string) : String.append EmptyString s = s.
Proof. reflexivity. Qed.

Lemma append_empty_r (s : string) : String.append s EmptyString = s.
Proof.
  induction s as [|a s IH]; [reflexivity|].
  rewrite append_cons. now rewrite IH.
Qed.

Lemma append_assoc (s t u : string) :
  String.append (String.append s t) u = String.append s (String.append t u).
Proof.
  induction s as [|a s IH]; [reflexivity|].
  rewrite !append_cons. now rewrite IH.
Qed.

Lemma length_append (s t : string) :
  String.length (String.append s t) = (String.length s + String.length t)%nat.
Proof.
  induction s as [|a s IH]; [reflexivity|].
  rewrite append_cons. cbn [String.length]. now rewrite IH.
Qed.

Lemma size_nonneg (s : string) : 0 <= Cxx.size s.
Proof. unfold Cxx.size. lia. Qed.

Lemma size_cons (a : ascii) (s : string) :
  Cxx.size (String a s) = Cxx.size s + 1.
Proof. unfold Cxx.size. cbn [String.length]. lia. Qed.

Lemma contains_cons (c a : ascii) (s : string) :
  Spec.contains c (String a s) = Ascii.eqb c a || Spec.contains c s.
Proof. reflexivity. Qed.

(** [Spec.contains] is membership. *)
Lemma contains_In (c : ascii) (s : string) :
  Spec.contains c s = true <-> In c (String.list_ascii_of_string s).
Proof.
  unfold Spec.contains. rewrite existsb_exists. split.
  - intros (a & Ha & Hc). apply Ascii.eqb_eq in Hc. now subst.
  - intros H. exists c. split; [assumption | apply Ascii.eqb_refl].
Qed.

End StringFacts.

(** ** GetEscapedArgument *)

Section Escaping.

(** The loop appends the transform of what is left to read. *)
Lemma GetEscapedArgument_loop_body (it : string) (acc : Cxx.ostringstream) :
  launcher.GetEscapedArgument_loop it acc
  = String.append acc (Spec.escape_body it).
Proof.
  revert acc. induction it as [|ch it IH]; intros acc.
  - cbn [launcher.GetEscapedArgument_loop Spec.escape_body].
    now rewrite append_empty_r.
  - cbn [launcher.GetEscapedArgument_loop Spec.escape_body].
    rewrite IH. unfold Spec.escape_char, Cxx.put_str, Cxx.put_char.
    destruct (Ascii.eqb ch dquote); [|destruct (Ascii.eqb ch backslash)];
      now rewrite append_assoc.
Qed.

(** A search that starts counting at [i] answers a position in
    [[i, i + size s)] when [c] occurs, and [npos] when it does not. *)
Lemma find_first_of_from_spec (c : ascii) (s : string) (i : Z) :
  if Spec.contains c s
  then i <= Cxx.find_first_of_from s c i < i + Cxx.size s
  else Cxx.find_first_of_from s c i = Cxx.npos.
Proof.
  revert i. induction s as [|a s IH]; intros i; [reflexivity|].
  rewrite contains_cons, size_cons. cbn [Cxx.find_first_of_from].
  rewrite (Ascii.eqb_sym c a).
  destruct (Ascii.eqb a c); cbn [orb].
  - pose proof (size_nonneg s). lia.
  - specialize (IH (i + 1)). destruct (Spec.contains c s); [lia | exact IH].
Qed.

(** On a [std::string], [has_space] is set exactly when there is a
    space. *)
Lemma has_space_contains (x : string) :
  Cxx.representable x ->
  negb (Cxx.find_first_of x space =? Cxx.npos) = Spec.contains space x.
Proof.
  unfold Cxx.representable, Cxx.find_first_of. intros Hx.
  pose proof (find_first_of_from_spec space x 0) as H.
  destruct (Spec.contains space x).
  - apply negb_true_iff, Z.eqb_neq. lia.
  - rewrite H. now rewrite Z.eqb_refl.
Qed.

(** Without a space the search fails, however long the string. *)
Lemma has_space_false (x : string) :
  Spec.contains space x = false ->
  negb (Cxx.find_first_of x space =? Cxx.npos) = false.
Proof.
  unfold Cxx.find_first_of. intros Hx.
  pose proof (find_first_of_from_spec space x 0) as H.
  rewrite Hx in H. rewrite H. now rewrite Z.eqb_refl.
Qed.

(** A string free of quotes and backslashes is its own transform. *)
Lemma escape_body_plain (x : string) :
  Spec.contains dquote x = false ->
  Spec.contains backslash x = false ->
  Spec.escape_body x = x.
Proof.
  induction x as [|c x IH]; [reflexivity|].
  rewrite !contains_cons. intros [Hq Hx]%orb_false_iff [Hb Hy]%orb_false_iff.
  cbn [Spec.escape_body]. unfold Spec.escape_char.
  rewrite Ascii.eqb_sym in Hq. rewrite Ascii.eqb_sym in Hb.
  rewrite Hq, Hb, append_cons, append_empty_l. now rewrite IH.
Qed.

(** C1. For every argument [x] (a [std::string]), [GetEscapedArgument x]
    is the concatenation of a double quote if [x] contains a space, the
    character-by-character transform of [x] (double quote to backslash
    double quote, backslash to two backslashes, any other character
    unchanged), and again a double quote if [x] contains a space. *)
Theorem GetEscapedArgument_correct (x : string) :
  Cxx.representable x ->
  launcher.GetEscapedArgument x
  = String.append (Spec.quote_if_space x)
      (String.append (Spec.escape_body x) (Spec.quote_if_space x)).
Proof.
  intros Hx. unfold launcher.GetEscapedArgument, Spec.quote_if_space.
  rewrite (has_space_contains x Hx), GetEscapedArgument_loop_body.
  unfold Cxx.put_char.
  destruct (Spec.contains space x).
  - now rewrite append_assoc.
  - now rewrite append_empty_l, append_empty_r.
Qed.

Lemma GetEscapedArgument_correct_witness :
  Cxx.representable "C:\my dir\a.txt"
  /\ launcher.GetEscapedArgument "C:\my dir\a.txt"
     = String.append (Spec.quote_if_space "C:\my dir\a.txt")
         (String.append (Spec.escape_body "C:\my dir\a.txt")
            (Spec.quote_if_space "C:\my dir\a.txt")).
Proof.
  split; [reflexivity|].
  apply (GetEscapedArgument_correct "C:\my dir\a.txt"). reflexivity.
Defined.

(** C2. On an argument with no space, no double quote and no backslash,
    escaping is the identity. *)
Theorem GetEscapedArgument_plain (x : string) :
  Spec.contains space x = false ->
  Spec.contains dquote x = false ->
  Spec.contains backslash x = false ->
  launcher.GetEscapedArgument x = x.
Proof.
  intros Hs Hq Hb. unfold launcher.GetEscapedArgument.
  rewrite (has_space_false x Hs), GetEscapedArgument_loop_body.
  rewrite append_empty_l. now apply escape_body_plain.
Qed.

Lemma GetEscapedArgument_plain_witness :
  launcher.GetEscapedArgument "--flag=foo/bar.txt" = "--flag=foo/bar.txt".
Proof.
  apply (GetEscapedArgument_plain "--flag=foo/bar.txt"); reflexivity.
Defined.

(** The examples of the specification: a quote and a backslash inside a
    word, and an argument with spaces. *)
Example GetEscapedArgument_quote :
  launcher.GetEscapedArgument (String "a" (String dquote "b"))
  = String "a" (String backslash (String dquote "b")).
Proof. reflexivity. Qed.

Example GetEscapedArgument_backslash :
  launcher.GetEscapedArgument (String "a" (String backslash "b"))
  = String "a" (String backslash (String backslash "b")).
Proof. reflexivity. Qed.

Example GetEscapedArgument_space :
  launcher.GetEscapedArgument "a b"
  = String dquote (String.append "a b" (String dquote EmptyString)).
Proof. reflexivity. Qed.

End Escaping.

(** ** GetBinaryPathWithoutExtension, GetBinaryPathWithExtension *)

Section BinaryPath.

Lemma substring_zero_zero (s : string) : String.substring 0 0 s = EmptyString.
Proof. destruct s; reflexivity. Qed.

Lemma substring_all (s : string) :
  String.substring 0 (String.length s) s = s.
Proof.
  induction s as [|a s IH]; [reflexivity|].
  cbn [String.length String.substring]. now rewrite IH.
Qed.

Lemma substring_append_l (q t : string) :
  String.substring 0 (String.length q) (String.append q t) = q.
Proof.
  induction q as [|a q IH].
  - cbn [String.length]. apply substring_zero_zero.
  - rewrite append_cons. cbn [String.length String.substring]. now rewrite IH.
Qed.

Lemma substring_append_r (q t : string) :
  String.substring (String.length q) (String.length t) (String.append q t) = t.
Proof.
  induction q as [|a q IH].
  - rewrite append_empty_l. apply substring_all.
  - rewrite append_cons. cbn [String.length String.substring]. exact IH.
Qed.

(** Cutting [s] at [n] and gluing the pieces gives [s] back. *)
Lemma substring_split (n : nat) (s : string) :
  (n <= String.length s)%nat ->
  s = String.append (String.substring 0 n s)
        (String.substring n (String.length s - n) s).
Proof.
  revert s. induction n as [|n IH]; intros s Hn.
  - rewrite substring_zero_zero, append_empty_l, Nat.sub_0_r.
    symmetry. apply substring_all.
  - destruct s as [|a s]; cbn [String.length] in Hn; [lia|].
    cbn [String.length String.substring Nat.sub]. rewrite append_cons.
    f_equal. apply IH. lia.
Qed.

Lemma prefix_length (t s : string) :
  String.prefix t s = true -> (String.length t <= String.length s)%nat.
Proof.
  revert s. induction t as [|a t IH]; intros s; cbn [String.length]; [lia|].
  destruct s as [|b s]; cbn [String.prefix String.length]; [discriminate|].
  destruct (Ascii.ascii_dec a b); [|discriminate].
  intros H. apply IH in H. lia.
Qed.

(** A string as long as [s] is a prefix of [s] only if it is [s]. *)
Lemma prefix_same_length (t s : string) :
  String.length t = String.length s ->
  String.prefix t s = String.eqb s t.
Proof.
  intros Hlen. destruct (String.eqb_spec s t) as [->|Hne].
  - apply String.prefix_correct, substring_all.
  - destruct (String.prefix t s) eqn:Hp; [|reflexivity].
    apply String.prefix_correct in Hp. rewrite Hlen, substring_all in Hp.
    congruence.
Qed.

(** A needle longer than the text is not found. *)
Lemma index_short (t s : string) (n : nat) :
  (String.length s < String.length t)%nat -> String.index n t s = None.
Proof.
  revert n. induction s as [|b s IH]; intros n Hlen.
  - destruct t; cbn [String.length] in Hlen; [lia|]. now destruct n.
  - cbn [String.length] in Hlen. destruct n as [|n]; cbn [String.index].
    + destruct (String.prefix t (String b s)) eqn:Hp.
      * apply prefix_length in Hp. cbn [String.length] in Hp. lia.
      * rewrite IH by lia. reflexivity.
    + rewrite IH by lia. reflexivity.
Qed.

(** Searching from the one position where the needle still fits
    compares the tail of the text with the needle. *)
Lemma index_tail (t s : string) (n : nat) :
  t <> EmptyString ->
  String.length s = (n + String.length t)%nat ->
  String.index n t s
  = if String.eqb (String.substring n (String.length t) s) t
    then Some n else None.
Proof.
  intros Ht. revert s. induction n as [|n IH]; intros s Hlen.
  - cbn [Nat.add] in Hlen. rewrite <- Hlen, substring_all.
    destruct s as [|b s].
    + destruct t; [congruence | discriminate].
    + cbn [String.index]. rewrite (prefix_same_length t (String b s)) by congruence.
      destruct (String.eqb (String b s) t); [reflexivity|].
      rewrite index_short; [reflexivity|].
      cbn [String.length] in Hlen. lia.
  - destruct s as [|b s]; cbn [String.length] in Hlen; [lia|].
    cbn [String.index String.substring]. rewrite IH by lia.
    now destruct (String.eqb _ t).
Qed.

Lemma has_exe_suffix_append (q : string) :
  Spec.has_exe_suffix (String.append q ".exe") = true.
Proof.
  unfold Spec.has_exe_suffix. rewrite length_append.
  cbn [String.length]. apply andb_true_iff. split.
  - apply Nat.leb_le. lia.
  - replace (String.length q + 4 - 4)%nat with (String.length q) by lia.
    change 4%nat with (String.length ".exe") at 1.
    rewrite (substring_append_r q ".exe"). reflexivity.
Qed.

Lemma drop_last_four_append (q t : string) :
  String.length t = 4%nat ->
  Spec.drop_last_four (String.append q t) = q.
Proof.
  intros Ht. unfold Spec.drop_last_four. rewrite length_append, Ht.
  replace (String.length q + 4 - 4)%nat with (String.length q) by lia.
  apply substring_append_l.
Qed.

(** The trailing four characters are [.exe] exactly when the path is
    some string followed by [.exe]; dropping them gives that string. *)
Lemma has_exe_suffix_iff (p : string) :
  Spec.has_exe_suffix p = true
  <-> p = String.append (Spec.drop_last_four p) ".exe".
Proof.
  split.
  - unfold Spec.has_exe_suffix, Spec.drop_last_four.
    intros [Hlen Heq]%andb_true_iff.
    apply Nat.leb_le in Hlen. apply String.eqb_eq in Heq.
    pose proof (substring_split (String.length p - 4) p) as Hs.
    replace (String.length p - (String.length p - 4))%nat with 4%nat in Hs by lia.
    rewrite Heq in Hs. apply Hs. lia.
  - intros ->. apply has_exe_suffix_append.
Qed.

(** Below 4, the subtraction [a - 4] at type [size_t] wraps around. *)
Lemma size_sub_wraps (a : Z) :
  0 <= a < 4 -> Cxx.size_sub a 4 = a - 4 + 2 ^ 64.
Proof.
  intros Ha. unfold Cxx.size_sub, Cxx.SIZE_MODULUS.
  symmetry. apply Z.mod_unique with (q := -1); lia.
Qed.

(** On a [std::string] the code is [Spec.strip]. *)
Lemma GetBinaryPathWithoutExtension_strip (p : string) :
  Cxx.representable p ->
  launcher.GetBinaryPathWithoutExtension p = Spec.strip p.
Proof.
  unfold Cxx.representable, Cxx.npos, Cxx.SIZE_MODULUS. intros Hp.
  unfold launcher.GetBinaryPathWithoutExtension, Spec.strip,
    Spec.has_exe_suffix, Cxx.find, Cxx.size_sub, Cxx.SIZE_MODULUS.
  pose proof (size_nonneg p) as H0.
  destruct (Nat.leb_spec 4 (String.length p)) as [Hlen|Hlen]; cbn [andb].
  - assert (Hs : 4 <= Cxx.size p) by (unfold Cxx.size; lia).
    rewrite (Z.mod_small (Cxx.size p - 4)) by lia.
    destruct (Z.ltb_spec (Cxx.size p) (Cxx.size p - 4)) as [?|_]; [lia|].
    replace (Z.to_nat (Cxx.size p - 4)) with (String.length p - 4)%nat
      by (unfold Cxx.size; lia).
    rewrite (index_tail ".exe" p (String.length p - 4));
      [|discriminate | cbn [String.length]; lia].
    cbn [String.length].
    destruct (String.eqb (String.substring (String.length p - 4) 4 p) ".exe").
    + destruct (Z.eqb_spec (Z.of_nat (String.length p - 4)) Cxx.npos) as [E|_].
      * unfold Cxx.npos, Cxx.SIZE_MODULUS, Cxx.size in *. lia.
      * cbn [negb]. unfold Cxx.substr, Spec.drop_last_four.
        rewrite Z.sub_0_r, Z.min_l by lia.
        replace (Z.to_nat (Cxx.size p - 4)) with (String.length p - 4)%nat
          by (unfold Cxx.size; lia).
        reflexivity.
    + rewrite Z.eqb_refl. reflexivity.
  - assert (Hs : Cxx.size p < 4) by (unfold Cxx.size; lia).
    change ((Cxx.size p - 4) mod 2 ^ 64) with (Cxx.size_sub (Cxx.size p) 4).
    rewrite size_sub_wraps by lia.
    destruct (Z.ltb_spec (Cxx.size p) (Cxx.size p - 4 + 2 ^ 64)) as [_|?]; [|lia].
    rewrite Z.eqb_refl. reflexivity.
Qed.

(** On a path shorter than the suffix, the start position
    [binary.size() - 4] wraps to a position past the end, where [find]
    reports no match. *)
Lemma find_exe_short (p : string) :
  Cxx.size p < 4 ->
  Cxx.find p ".exe" (Cxx.size_sub (Cxx.size p) 4) = Cxx.npos.
Proof.
  intros Hs. pose proof (size_nonneg p) as H0.
  unfold Cxx.find. rewrite size_sub_wraps by lia.
  destruct (Z.ltb_spec (Cxx.size p) (Cxx.size p - 4 + 2 ^ 64)) as [_|?];
    [reflexivity | lia].
Qed.

Lemma representable_short (p : string) : Cxx.size p < 4 -> Cxx.representable p.
Proof. unfold Cxx.representable, Cxx.npos, Cxx.SIZE_MODULUS. lia. Qed.

(** Stripping what was glued on. *)
Lemma GetBinaryPathWithoutExtension_append (q : string) :
  Cxx.representable (String.append q ".exe") ->
  launcher.GetBinaryPathWithoutExtension (String.append q ".exe") = q.
Proof.
  intros Hq. rewrite GetBinaryPathWithoutExtension_strip by assumption.
  unfold Spec.strip. rewrite has_exe_suffix_append.
  now apply drop_last_four_append.
Qed.

(** The claim of C4 as stated fails on the path [bin]: the
    trailing-match check does underflow. At type [size_t] the start
    position [binary.size() - 4] is not the difference [3 - 4] but has
    wrapped around to [2^64 - 1], which is [npos]. *)
Lemma GetBinaryPathWithoutExtension_short_wraps :
  Cxx.size "bin" - 4 = -1
  /\ Cxx.size_sub (Cxx.size "bin") 4 = 2 ^ 64 - 1
  /\ Cxx.size_sub (Cxx.size "bin") 4 = Cxx.npos
  /\ Cxx.size_sub (Cxx.size "bin") 4 <> Cxx.size "bin" - 4.
Proof. repeat split. discriminate. Qed.

(** C4 (amended). For every path [p], [GetBinaryPathWithoutExtension p]
    is [p] without its last four characters exactly when the trailing
    four characters of [p] are [.exe] (compared character by character,
    so case matters), and [p] itself otherwise; on a path shorter than
    four characters the subtraction [size() - 4] of the trailing-match
    check wraps around modulo [2^64] to a start position past the end of
    [p], for which [find] reports no match, and [p] comes back
    unchanged. *)
Theorem GetBinaryPathWithoutExtension_correct (p : string) :
  Cxx.representable p ->
  launcher.GetBinaryPathWithoutExtension p
  = (if Spec.has_exe_suffix p then Spec.drop_last_four p else p)
  /\ (Cxx.size p < 4 ->
      Cxx.size_sub (Cxx.size p) 4 = Cxx.size p - 4 + Cxx.SIZE_MODULUS
      /\ Cxx.size p < Cxx.size_sub (Cxx.size p) 4
      /\ Cxx.find p ".exe" (Cxx.size_sub (Cxx.size p) 4) = Cxx.npos
      /\ launcher.GetBinaryPathWithoutExtension p = p).
Proof.
  intros Hp. split.
  - apply (GetBinaryPathWithoutExtension_strip p Hp).
  - intros Hs. pose proof (size_nonneg p) as H0.
    assert (Hw : Cxx.size_sub (Cxx.size p) 4
                 = Cxx.size p - 4 + Cxx.SIZE_MODULUS)
      by (apply size_sub_wraps; lia).
    split; [exact Hw|].
    split; [rewrite Hw; unfold Cxx.SIZE_MODULUS; lia|].
    split; [now apply find_exe_short|].
    unfold launcher.GetBinaryPathWithoutExtension.
    rewrite find_exe_short by assumption. now rewrite Z.eqb_refl.
Qed.

Lemma GetBinaryPathWithoutExtension_correct_witness :
  launcher.GetBinaryPathWithoutExtension "foo/bar.exe" = "foo/bar"
  /\ (Cxx.size_sub (Cxx.size "bin") 4 = Cxx.size "bin" - 4 + Cxx.SIZE_MODULUS
      /\ Cxx.size "bin" < Cxx.size_sub (Cxx.size "bin") 4
      /\ Cxx.find "bin" ".exe" (Cxx.size_sub (Cxx.size "bin") 4) = Cxx.npos
      /\ launcher.GetBinaryPathWithoutExtension "bin" = "bin").
Proof.
  split.
  - apply (proj1 (GetBinaryPathWithoutExtension_correct "foo/bar.exe" eq_refl)).
  - apply (proj2 (GetBinaryPathWithoutExtension_correct "bin" eq_refl) eq_refl).
Defined.

(** The suffix is matched case-sensitively, and only at the end. *)
Example GetBinaryPathWithoutExtension_upper :
  launcher.GetBinaryPathWithoutExtension "foo/bar.EXE" = "foo/bar.EXE".
Proof. reflexivity. Qed.

Example GetBinaryPathWithoutExtension_inner :
  launcher.GetBinaryPathWithoutExtension "foo.exe/bar" = "foo.exe/bar".
Proof. reflexivity. Qed.

(** C5. For every path [p], stripping after adding equals stripping:
    [GetBinaryPathWithoutExtension (GetBinaryPathWithExtension p)
     = GetBinaryPathWithoutExtension p]. *)
Theorem GetBinaryPathWithoutExtension_WithExtension (p : string) :
  Cxx.representable (launcher.GetBinaryPathWithExtension p) ->
  launcher.GetBinaryPathWithoutExtension (launcher.GetBinaryPathWithExtension p)
  = launcher.GetBinaryPathWithoutExtension p.
Proof.
  unfold launcher.GetBinaryPathWithExtension.
  apply GetBinaryPathWithoutExtension_append.
Qed.

Lemma GetBinaryPathWithoutExtension_WithExtension_witness :
  launcher.GetBinaryPathWithoutExtension
    (launcher.GetBinaryPathWithExtension "tools/launcher.exe")
  = launcher.GetBinaryPathWithoutExtension "tools/launcher.exe".
Proof.
  apply (GetBinaryPathWithoutExtension_WithExtension "tools/launcher.exe").
  reflexivity.
Defined.

(** C6. [GetBinaryPathWithExtension] maps [foo/bar] to [foo/bar.exe] and
    leaves [foo/bar.exe] as it is; in general it strips a trailing
    [.exe] and then appends [.exe] unconditionally, so that a path that
    already ends in [.exe] comes back unchanged (no second suffix) and
    any other path comes back with [.exe] appended. *)
Theorem GetBinaryPathWithExtension_correct :
  launcher.GetBinaryPathWithExtension "foo/bar" = "foo/bar.exe"
  /\ launcher.GetBinaryPathWithExtension "foo/bar.exe" = "foo/bar.exe"
  /\ forall p : string,
      Cxx.representable p ->
      launcher.GetBinaryPathWithExtension p
      = String.append (Spec.strip p) ".exe"
      /\ launcher.GetBinaryPathWithExtension p
         = (if Spec.has_exe_suffix p then p else String.append p ".exe").
Proof.
  split; [reflexivity|]. split; [reflexivity|].
  intros p Hp. unfold launcher.GetBinaryPathWithExtension.
  rewrite (GetBinaryPathWithoutExtension_strip p Hp). split; [reflexivity|].
  unfold Spec.strip. destruct (Spec.has_exe_suffix p) eqn:Hsuf; [|reflexivity].
  symmetry. now apply has_exe_suffix_iff.
Qed.

Lemma GetBinaryPathWithExtension_correct_witness :
  launcher.GetBinaryPathWithExtension "a.exe.exe" = "a.exe.exe".
Proof.
  apply (proj2 (proj2 (proj2 GetBinaryPathWithExtension_correct)
                 "a.exe.exe" eq_refl)).
Defined.

End BinaryPath.

(** ** GetRandomStr *)

Section RandomNames.

Lemma strlen_alphabet : Cxx.strlen launcher.alphabet = 62.
Proof. reflexivity. Qed.

(** Indexing the literal agrees with the alphabet of the specification,
    and every entry is alphanumeric. *)
Lemma alphabet_at_index (i : Z) :
  0 <= i < 62 ->
  exists c : ascii,
    Cxx.at_index launcher.alphabet i = Some c
    /\ Spec.alphabet_char i = Some c
    /\ Spec.contains c launcher.alphabet = true
    /\ Spec.alphanumeric c = true.
Proof.
  intros Hi.
  assert (exists n : nat, (n < 62)%nat /\ i = Z.of_nat n) as (n & Hn & ->)
    by (exists (Z.to_nat i); lia).
  clear Hi.
  do 62 (destruct n as [|n];
         [eexists; repeat split; vm_compute; reflexivity|]).
  lia.
Qed.

Lemma get_beyond (s : string) (i : nat) :
  (String.length s <= i)%nat -> String.get i s = None.
Proof.
  revert i. induction s as [|a s IH]; intros i Hi; [reflexivity|].
  cbn [String.length] in Hi. destruct i as [|i]; [lia|].
  cbn [String.get]. apply IH. lia.
Qed.

Lemma draw_mod_range (x : Z) : 0 <= x mod 62 < 62.
Proof. apply Z.mod_pos_bound. lia. Qed.

(** The loop appends one alphabet character per round, the one at the
    round's draw reduced modulo 62, and takes one draw per round. *)
Lemma GetRandomStr_loop_spec (n : nat) (acc : Cxx.ostringstream)
    (g : Win32.random_source) :
  exists s : string,
    launcher.GetRandomStr_loop n acc g
    = (Value (String.append acc s),
       {| Win32.draws := Win32.draws g;
          Win32.drawn := (Win32.drawn g + n)%nat |})
    /\ String.length s = n
    /\ forall i : nat, (i < n)%nat ->
         String.get i s = Spec.alphabet_char (Spec.draw g i mod 62).
Proof.
  revert acc g. induction n as [|n IH]; intros acc g.
  - exists EmptyString. cbn [launcher.GetRandomStr_loop].
    rewrite append_empty_r, Nat.add_0_r. destruct g.
    repeat split. intros i Hi. lia.
  - cbn [launcher.GetRandomStr_loop]. unfold Win32.rand_s.
    rewrite strlen_alphabet.
    destruct (alphabet_at_index
                ((Win32.draws g (Win32.drawn g) mod Win32.DWORD_MODULUS) mod 62)
                (draw_mod_range _)) as (c & Hat & Hspec & _ & _).
    rewrite Hat.
    destruct (IH (Cxx.put_char acc c)
                {| Win32.draws := Win32.draws g;
                   Win32.drawn := S (Win32.drawn g) |})
      as (s & Hrun & Hlen & Hget).
    exists (String c s). split; [|split].
    + rewrite Hrun. unfold Cxx.put_char. cbn [Win32.draws Win32.drawn].
      rewrite append_assoc, append_cons, append_empty_l.
      replace (S (Win32.drawn g) + n)%nat with (Win32.drawn g + S n)%nat by lia.
      reflexivity.
    + cbn [String.length]. now rewrite Hlen.
    + intros [|i] Hi.
      * cbn [String.get]. unfold Spec.draw. rewrite Nat.add_0_r. now rewrite Hspec.
      * cbn [String.get]. rewrite Hget by lia. unfold Spec.draw.
        cbn [Win32.draws Win32.drawn].
        replace (S (Win32.drawn g) + i)%nat with (Win32.drawn g + S i)%nat by lia.
        reflexivity.
Qed.

(** C7. For every length [len] and every random source,
    [GetRandomStr len] returns a string of exactly [len] characters,
    the [i]-th of which is the character of the fixed 62-character
    alphabet ([A]-[Z], [a]-[z], [0]-[9]) at the [i]-th draw reduced
    modulo 62; every character is alphanumeric and occurs in the
    alphabet, and the call consumes exactly [len] draws. *)
Theorem GetRandomStr_correct (len : nat) (g : Win32.random_source) :
  exists s : string,
    launcher.GetRandomStr len g
    = (Value s, {| Win32.draws := Win32.draws g;
                   Win32.drawn := (Win32.drawn g + len)%nat |})
    /\ String.length s = len
    /\ (forall i : nat, (i < len)%nat ->
          String.get i s = Spec.alphabet_char (Spec.draw g i mod 62))
    /\ (forall (i : nat) (c : ascii), String.get i s = Some c ->
          Spec.contains c launcher.alphabet = true
          /\ Spec.alphanumeric c = true).
Proof.
  unfold launcher.GetRandomStr.
  destruct (GetRandomStr_loop_spec len EmptyString g) as (s & Hrun & Hlen & Hget).
  exists s. rewrite append_empty_l in Hrun.
  split; [assumption|]. split; [assumption|]. split; [assumption|].
  intros i c Hc.
  destruct (Nat.lt_ge_cases i len) as [Hi|Hi].
  - rewrite (Hget i Hi) in Hc.
    destruct (alphabet_at_index (Spec.draw g i mod 62) (draw_mod_range _))
      as (c' & _ & Hspec & Hin & Han).
    split; congruence.
  - rewrite get_beyond in Hc by lia. discriminate.
Qed.

Example GetRandomStr_sample :
  fst (launcher.GetRandomStr 4
         {| Win32.draws := fun i => Z.of_nat i * 1000003 + 61;
            Win32.drawn := 0 |})
  = Value "9EJO".
Proof. vm_compute. reflexivity. Qed.

End RandomNames.

(** ** GetEnv, SetEnv *)

Section Environment.

Lemma c_str_idempotent (s : string) : Cxx.c_str (Cxx.c_str s) = Cxx.c_str s.
Proof.
  induction s as [|a s IH]; [reflexivity|].
  cbn [Cxx.c_str]. destruct (Ascii.eqb a NUL) eqn:Ha; [reflexivity|].
  cbn [Cxx.c_str]. now rewrite Ha, IH.
Qed.

Lemma size_zero_empty (s : string) : Cxx.size s = 0 -> s = EmptyString.
Proof.
  destruct s; [reflexivity|]. unfold Cxx.size. cbn [String.length]. lia.
Qed.

(** A successful [SetEnv] leaves the variable set to the value, as the
    platform read it. *)
Lemma SetEnv_lookup (name v : string) (env env' : Win32.environment) :
  launcher.SetEnv name v env = (true, env') ->
  Win32.variables env' !! Cxx.c_str name = Some (Cxx.c_str v).
Proof.
  unfold launcher.SetEnv, Win32.SetEnvironmentVariableA.
  destruct (Win32.accepts env (Cxx.c_str name) (Cxx.c_str v)); [|discriminate].
  intros [= <-]. cbn [Win32.variables]. apply lookup_insert_eq.
Qed.

(** What [GetEnv] answers, by the state of the variable. *)
Lemma GetEnv_unset (name old : string) (env : Win32.environment) :
  Win32.variables env !! Cxx.c_str name = None ->
  launcher.GetEnv name old env = Value (false, old).
Proof.
  intros Hv. unfold launcher.GetEnv, Win32.GetEnvironmentVariableA.
  now rewrite Hv.
Qed.

Lemma GetEnv_set (name old v : string) (env : Win32.environment) :
  Win32.variables env !! Cxx.c_str name = Some v ->
  v <> EmptyString ->
  Cxx.size v < launcher.BUFFER_SIZE ->
  launcher.GetEnv name old env = Value (true, Cxx.c_str v).
Proof.
  intros Hv Hne Hfit. unfold launcher.GetEnv, Win32.GetEnvironmentVariableA.
  rewrite Hv.
  destruct (Z.ltb_spec (Cxx.size v) launcher.BUFFER_SIZE) as [_|?]; [|lia].
  destruct (Z.eqb_spec (Cxx.size v) 0) as [E|_]; [|reflexivity].
  now apply size_zero_empty in E.
Qed.

(** A value of 32767 characters or more does not fit the buffer: the
    platform call stores nothing and answers a nonzero size, and
    [GetEnv] goes on to read the buffer. *)
Lemma GetEnv_too_long (name old v : string) (env : Win32.environment) :
  Win32.variables env !! Cxx.c_str name = Some v ->
  launcher.BUFFER_SIZE <= Cxx.size v ->
  launcher.GetEnv name old env = Undefined.
Proof.
  intros Hv Hbig. unfold launcher.GetEnv, Win32.GetEnvironmentVariableA.
  rewrite Hv.
  destruct (Z.ltb_spec (Cxx.size v) launcher.BUFFER_SIZE) as [?|_]; [lia|].
  destruct (Z.eqb_spec (Cxx.size v + 1) 0) as [E|_]; [|reflexivity].
  unfold launcher.BUFFER_SIZE in Hbig. lia.
Qed.

(** A value with a NUL inside reaches the platform cut at the NUL, and
    that is what [GetEnv] reads back. *)
Example SetEnv_GetEnv_embedded_nul :
  launcher.GetEnv "RUNFILES_DIR" EmptyString
    (snd (launcher.SetEnv "RUNFILES_DIR" (String "a" (String NUL "b"))
            Win32.empty_environment))
  = Value (true, "a").
Proof. vm_compute. reflexivity. Qed.

(** The claim of C3 as stated fails on the empty value: [SetEnv]
    succeeds, and the [GetEnv] that follows answers false and leaves
    the caller's string alone, instead of succeeding with the empty
    value. *)
Lemma SetEnv_GetEnv_empty_value :
  fst (launcher.SetEnv "RUNFILES_DIR" EmptyString Win32.empty_environment)
  = true
  /\ launcher.GetEnv "RUNFILES_DIR" "stale"
       (snd (launcher.SetEnv "RUNFILES_DIR" EmptyString
               Win32.empty_environment))
     = Value (false, "stale")
  /\ launcher.GetEnv "RUNFILES_DIR" "stale"
       (snd (launcher.SetEnv "RUNFILES_DIR" EmptyString
               Win32.empty_environment))
     <> Value (true, EmptyString).
Proof.
  assert (H : launcher.GetEnv "RUNFILES_DIR" "stale"
                (snd (launcher.SetEnv "RUNFILES_DIR" EmptyString
                        Win32.empty_environment))
              = Value (false, "stale")).
  { unfold launcher.GetEnv, Win32.GetEnvironmentVariableA.
    cbn [launcher.SetEnv Win32.SetEnvironmentVariableA Win32.empty_environment
         Win32.accepts Win32.variables snd].
    rewrite lookup_insert_eq. reflexivity. }
  split; [reflexivity|]. split; [exact H|].
  rewrite H. discriminate.
Qed.

(** C3 (amended). For every name and every value [v] that is not
    empty, holds no NUL and, with its terminator, fits the buffer of
    32767 characters, a successful [SetEnv name v] followed at once by
    [GetEnv name] succeeds and yields exactly [v]; and [GetEnv] on a
    name that is not set answers false (and leaves the caller's string
    as it was). *)
Theorem SetEnv_GetEnv_roundtrip :
  (forall (name v old : string) (env env' : Win32.environment),
      launcher.SetEnv name v env = (true, env') ->
      v <> EmptyString ->
      Cxx.c_str v = v ->
      Cxx.size v < launcher.BUFFER_SIZE ->
      launcher.GetEnv name old env' = Value (true, v))
  /\ (forall (name old : string) (env : Win32.environment),
        Win32.variables env !! Cxx.c_str name = None ->
        launcher.GetEnv name old env = Value (false, old)).
Proof.
  split.
  - intros name v old env env' Hset Hne Hc Hfit.
    apply SetEnv_lookup in Hset. rewrite Hc in Hset.
    rewrite (GetEnv_set name old v env' Hset Hne Hfit). now rewrite Hc.
  - intros name old env. apply GetEnv_unset.
Qed.

Lemma SetEnv_GetEnv_roundtrip_witness :
  launcher.GetEnv "JAVA_HOME" EmptyString
    (snd (launcher.SetEnv "JAVA_HOME" "C:\jdk" Win32.empty_environment))
  = Value (true, "C:\jdk")
  /\ launcher.GetEnv "JAVA_HOME" "stale" Win32.empty_environment
     = Value (false, "stale").
Proof.
  split.
  - apply (proj1 SetEnv_GetEnv_roundtrip "JAVA_HOME" "C:\jdk" EmptyString
             Win32.empty_environment).
    + reflexivity.
    + discriminate.
    + reflexivity.
    + reflexivity.
  - apply (proj2 SetEnv_GetEnv_roundtrip "JAVA_HOME" "stale"
             Win32.empty_environment).
    reflexivity.
Defined.

(** C10. For every name whose variable holds the empty string,
    [GetEnv] answers false and leaves the caller's string as it was,
    exactly as it does once the variable is removed: the platform call
    reports 0 characters stored in both cases. *)
Theorem GetEnv_empty_value (name old : string) (env : Win32.environment) :
  Win32.variables env !! Cxx.c_str name = Some EmptyString ->
  launcher.GetEnv name old env = Value (false, old)
  /\ launcher.GetEnv name old env
     = launcher.GetEnv name old (Win32.remove_variable (Cxx.c_str name) env)
  /\ fst (Win32.GetEnvironmentVariableA (Cxx.c_str name) launcher.BUFFER_SIZE env)
     = 0
  /\ fst (Win32.GetEnvironmentVariableA (Cxx.c_str name) launcher.BUFFER_SIZE
            (Win32.remove_variable (Cxx.c_str name) env))
     = 0.
Proof.
  intros Hv.
  assert (Hgone : Win32.variables (Win32.remove_variable (Cxx.c_str name) env)
                  !! Cxx.c_str name = None)
    by (cbn [Win32.remove_variable Win32.variables]; apply lookup_delete_eq).
  assert (Hget : launcher.GetEnv name old env = Value (false, old)).
  { unfold launcher.GetEnv, Win32.GetEnvironmentVariableA. now rewrite Hv. }
  split; [exact Hget|]. split; [|split].
  - rewrite Hget. symmetry. now apply GetEnv_unset.
  - unfold Win32.GetEnvironmentVariableA. now rewrite Hv.
  - unfold Win32.GetEnvironmentVariableA. now rewrite Hgone.
Qed.

Lemma GetEnv_empty_value_witness :
  launcher.GetEnv "TEST_TMPDIR" "stale"
    (snd (launcher.SetEnv "TEST_TMPDIR" EmptyString Win32.empty_environment))
  = Value (false, "stale").
Proof.
  apply (GetEnv_empty_value "TEST_TMPDIR" "stale"
           (snd (launcher.SetEnv "TEST_TMPDIR" EmptyString
                   Win32.empty_environment))).
  vm_compute. reflexivity.
Defined.

End Environment.

(** ** GetLastErrorString *)

Section LastError.

Lemma append_cons_nonempty (a : ascii) (s t : string) :
  String.append (String a s) t <> EmptyString.
Proof. rewrite append_cons. discriminate. Qed.

(** With no pending error the answer is the empty string. *)
Lemma GetLastErrorString_no_error (e : Win32.error_state) :
  Win32.GetLastError e = 0 ->
  launcher.GetLastErrorString e = Value EmptyString.
Proof.
  intros H0. unfold launcher.GetLastErrorString. now rewrite H0.
Qed.

(** With a pending error the system has a message for, the answer is
    the code and the message, and is not empty. *)
Lemma GetLastErrorString_message (e : Win32.error_state) (text : string) :
  Win32.GetLastError e <> 0 ->
  Win32.messages e (Win32.GetLastError e) = Some text ->
  exists s : string,
    launcher.GetLastErrorString e = Value s
    /\ s = String.append "(error: "
             (String.append
                (NilZero.string_of_uint
                   (N.to_uint (Z.to_N (Win32.GetLastError e))))
                (String.append "): " (Cxx.c_str text)))
    /\ s <> EmptyString.
Proof.
  intros Hne Hmsg. eexists. split; [|split].
  - unfold launcher.GetLastErrorString, Win32.FormatMessageA.
    apply Z.eqb_neq in Hne. rewrite Hne, Hmsg.
    unfold Cxx.put_str, Cxx.put_unsigned.
    rewrite append_empty_l, !append_assoc. reflexivity.
  - reflexivity.
  - apply append_cons_nonempty.
Qed.

(** With a pending error the system has no message for,
    [FormatMessageA] stores nothing and the function reads
    [message_buffer] all the same. *)
Lemma GetLastErrorString_no_message (e : Win32.error_state) :
  Win32.GetLastError e <> 0 ->
  Win32.messages e (Win32.GetLastError e) = None ->
  launcher.GetLastErrorString e = Undefined.
Proof.
  intros Hne Hmsg. unfold launcher.GetLastErrorString, Win32.FormatMessageA.
  apply Z.eqb_neq in Hne. now rewrite Hne, Hmsg.
Qed.

Example GetLastErrorString_access_denied :
  launcher.GetLastErrorString
    {| Win32.last_error := 5;
       Win32.messages := fun code =>
         if code =? 5 then Some "Access is denied." else None |}
  = Value "(error: 5): Access is denied.".
Proof. reflexivity. Qed.

(** C8 (the code departs from the claim). The claim asks for a
    non-empty message on every nonzero last-error code. On the code
    536870913 (an application-defined code, bit 29 set), for which the
    system message table has no entry, [FormatMessageA] returns 0 and
    stores nothing, and [GetLastErrorString] streams the pointer
    [message_buffer] that was never written: it has no defined
    result. *)
Theorem GetLastErrorString_unknown_code :
  launcher.GetLastErrorString
    {| Win32.last_error := 536870913;
       Win32.messages := fun code =>
         if code =? 5 then Some "Access is denied." else None |}
  = Undefined.
Proof. reflexivity. Qed.

End LastError.

(** ** die, AsAbsoluteWindowsPath *)

Section FatalPath.

Variable blaze_util_AsAbsoluteWindowsPath :
  string -> launcher.wstring -> bool * launcher.wstring.

(** [die] writes the prefix, the formatted message and a newline to
    standard error, and exits with status 1. *)
Lemma die_exits (format : string) (ap : list string) (p : Proc.process) :
  launcher.die format ap p
  = Proc.Exited 1
      {| Proc.stderr :=
           String.append (Proc.stderr p)
             (String.append "LAUNCHER ERROR: "
                (String.append (Proc.format_text (Cxx.c_str format) ap)
                   (String newline EmptyString))) |}.
Proof.
  unfold launcher.die, mbind, proc_bind, Proc.bind, Proc.fputs, Proc.vfprintf,
    Proc.fputc, Proc.write_stderr, Proc.exit.
  cbn [Proc.stderr]. rewrite !append_assoc. reflexivity.
Qed.

(** [PrintError] writes the same text and returns. *)
Lemma PrintError_returns (format : string) (ap : list string)
    (p : Proc.process) :
  launcher.PrintError format ap p
  = Proc.Returned tt
      {| Proc.stderr :=
           String.append (Proc.stderr p)
             (String.append "LAUNCHER ERROR: "
                (String.append (Proc.format_text (Cxx.c_str format) ap)
                   (String newline EmptyString))) |}.
Proof.
  unfold launcher.PrintError, mbind, proc_bind, Proc.bind, Proc.fputs,
    Proc.vfprintf, Proc.fputc, Proc.write_stderr.
  cbn [Proc.stderr]. rewrite !append_assoc. reflexivity.
Qed.

(** The message of the failed conversion. *)
Lemma conversion_message (path : string) :
  Proc.format_text
    (Cxx.c_str "Couldn't convert %s to absoulte Windows path.") [path]
  = String.append "Couldn't convert "
      (String.append (Cxx.c_str path) " to absoulte Windows path.").
Proof. reflexivity. Qed.

(** C9. For every path the underlying conversion cannot resolve,
    [AsAbsoluteWindowsPath] does not return: it appends to standard
    error the fixed prefix [LAUNCHER ERROR: ], the message naming the
    path and a newline, and ends the process with exit code 1; for
    every path the conversion resolves it returns the converted wide
    string and writes nothing. *)
Theorem AsAbsoluteWindowsPath_correct (path : string) (p : Proc.process) :
  (fst (blaze_util_AsAbsoluteWindowsPath path []) = false ->
   launcher.AsAbsoluteWindowsPath blaze_util_AsAbsoluteWindowsPath path p
   = Proc.Exited 1
       {| Proc.stderr :=
            String.append (Proc.stderr p)
              (String.append "LAUNCHER ERROR: "
                 (String.append
                    (String.append "Couldn't convert "
                       (String.append (Cxx.c_str path)
                          " to absoulte Windows path."))
                    (String newline EmptyString))) |})
  /\ (fst (blaze_util_AsAbsoluteWindowsPath path []) = true ->
      launcher.AsAbsoluteWindowsPath blaze_util_AsAbsoluteWindowsPath path p
      = Proc.Returned (snd (blaze_util_AsAbsoluteWindowsPath path [])) p).
Proof.
  unfold launcher.AsAbsoluteWindowsPath.
  destruct (blaze_util_AsAbsoluteWindowsPath path []) as [converted wpath].
  cbn [fst snd]. split; intros ->; cbn [negb].
  - unfold mbind, proc_bind, Proc.bind. rewrite die_exits.
    now rewrite conversion_message.
  - reflexivity.
Qed.

End FatalPath.

Lemma AsAbsoluteWindowsPath_correct_witness :
  launcher.AsAbsoluteWindowsPath (fun _ wpath => (false, wpath)) "a<b"
    {| Proc.stderr := EmptyString |}
  = Proc.Exited 1
      {| Proc.stderr :=
           String.append "LAUNCHER ERROR: Couldn't convert a<b to absoulte Windows path."
             (String newline EmptyString) |}
  /\ launcher.AsAbsoluteWindowsPath (fun _ _ => (true, [67; 58; 92; 97])) "a"
       {| Proc.stderr := EmptyString |}
     = Proc.Returned [67; 58; 92; 97] {| Proc.stderr := EmptyString |}.
Proof.
  split.
  - apply (proj1 (AsAbsoluteWindowsPath_correct
                    (fun _ wpath => (false, wpath)) "a<b"
                    {| Proc.stderr := EmptyString |})).
    reflexivity.
  - apply (proj2 (AsAbsoluteWindowsPath_correct
                    (fun _ _ => (true, [67; 58; 92; 97])) "a"
                    {| Proc.stderr := EmptyString |})).
    reflexivity.
Defined.

(** * Further properties *)

(** ** GetEscapedArgument: what the output tells about the input *)

Section EscapingFurther.

(** The shape of the output, for reuse below. *)
Lemma GetEscapedArgument_shape (x : string) :
  Cxx.representable x ->
  launcher.GetEscapedArgument x
  = String.append (Spec.quote_if_space x)
      (String.append (Spec.escape_body x) (Spec.quote_if_space x)).
Proof.
  intros Hx. unfold launcher.GetEscapedArgument, Spec.quote_if_space.
  rewrite (has_space_contains x Hx), GetEscapedArgument_loop_body.
  unfold Cxx.put_char.
  destruct (Spec.contains space x).
  - now rewrite append_assoc.
  - now rewrite append_empty_l, append_empty_r.
Qed.

Lemma dquote_backslash : dquote <> backslash.
Proof. discriminate. Qed.

(** The transform of one character, by cases. *)
Lemma escape_char_cases (c : ascii) :
  (c = dquote
   /\ Spec.escape_char c = String backslash (String dquote EmptyString))
  \/ (c = backslash
      /\ Spec.escape_char c = String backslash (String backslash EmptyString))
  \/ (c <> dquote /\ c <> backslash
      /\ Spec.escape_char c = String c EmptyString).
Proof.
  unfold Spec.escape_char.
  destruct (Ascii.eqb_spec c dquote) as [->|Hq]; [now left|].
  destruct (Ascii.eqb_spec c backslash) as [->|Hb]; [right; now left|].
  right; right. now repeat split.
Qed.

(** The transform never starts with a bare double quote. *)
Lemma escape_body_head (x rest : string) :
  Spec.escape_body x <> String dquote rest.
Proof.
  destruct x as [|c x]; [discriminate|]. cbn [Spec.escape_body].
  destruct (escape_char_cases c) as [[_ ->]|[[_ ->]|(Hq & _ & ->)]];
    rewrite !append_cons; intros [= H _]; [discriminate H..| congruence].
Qed.

(** The transform can be read back: it is one-to-one. *)
Lemma escape_body_inj (x y : string) :
  Spec.escape_body x = Spec.escape_body y -> x = y.
Proof.
  revert y. induction x as [|c x IH]; intros [|d y]; cbn [Spec.escape_body].
  - reflexivity.
  - destruct (escape_char_cases d) as [[_ ->]|[[_ ->]|(_ & _ & ->)]];
      rewrite !append_cons; discriminate.
  - destruct (escape_char_cases c) as [[_ ->]|[[_ ->]|(_ & _ & ->)]];
      rewrite !append_cons; discriminate.
  - destruct (escape_char_cases c) as [[-> ->]|[[-> ->]|(Hcq & Hcb & ->)]];
      destruct (escape_char_cases d) as [[-> ->]|[[-> ->]|(Hdq & Hdb & ->)]];
      rewrite !append_cons, ?append_empty_l; intros H;
      injection H as H; subst;
      try congruence;
      try (injection H as H; subst; try congruence);
      try (f_equal; now apply IH);
      try discriminate.
Qed.

Lemma append_cancel_r (s t u : string) :
  String.append s u = String.append t u -> s = t.
Proof.
  intros H.
  assert (Hlen : String.length s = String.length t).
  { apply (f_equal String.length) in H. rewrite !length_append in H. lia. }
  revert t H Hlen. induction s as [|a s IH]; intros [|b t] H Hlen;
    cbn [String.length] in Hlen; try lia; [reflexivity|].
  rewrite !append_cons in H. injection H as -> H.
  f_equal. apply IH; [assumption | lia].
Qed.

(** X1. [GetEscapedArgument] is one-to-one on [std::string]s: two
    arguments with the same escaped form are the same argument. *)
Theorem GetEscapedArgument_injective (x y : string) :
  Cxx.representable x ->
  Cxx.representable y ->
  launcher.GetEscapedArgument x = launcher.GetEscapedArgument y ->
  x = y.
Proof.
  intros Hx Hy. rewrite (GetEscapedArgument_shape x Hx),
    (GetEscapedArgument_shape y Hy).
  unfold Spec.quote_if_space.
  destruct (Spec.contains space x), (Spec.contains space y);
    rewrite ?append_cons, ?append_empty_l, ?append_empty_r; intros H.
  - injection H as H. apply append_cancel_r in H. now apply escape_body_inj.
  - symmetry in H. now apply escape_body_head in H.
  - now apply escape_body_head in H.
  - now apply escape_body_inj.
Qed.

Lemma GetEscapedArgument_injective_witness : "a b" = "a b".
Proof.
  apply (GetEscapedArgument_injective "a b" "a b"); reflexivity.
Defined.

Lemma escape_body_length (x : string) :
  (String.length x <= String.length (Spec.escape_body x)
   <= 2 * String.length x)%nat.
Proof.
  induction x as [|c x IH]; cbn [Spec.escape_body String.length]; [lia|].
  rewrite length_append.
  destruct (escape_char_cases c) as [[_ ->]|[[_ ->]|(_ & _ & ->)]];
    cbn [String.length]; lia.
Qed.

(** X2. The escaped form is never shorter than the argument and at most
    twice as long plus the two quotes. *)
Theorem GetEscapedArgument_size (x : string) :
  Cxx.representable x ->
  Cxx.size x <= Cxx.size (launcher.GetEscapedArgument x) <= 2 * Cxx.size x + 2.
Proof.
  intros Hx. rewrite (GetEscapedArgument_shape x Hx).
  unfold Cxx.size, Spec.quote_if_space.
  rewrite !length_append. pose proof (escape_body_length x).
  destruct (Spec.contains space x); cbn [String.length]; lia.
Qed.

Lemma GetEscapedArgument_size_witness :
  Cxx.size "a\b c" <= Cxx.size (launcher.GetEscapedArgument "a\b c")
  <= 2 * Cxx.size "a\b c" + 2.
Proof. apply (GetEscapedArgument_size "a\b c"). reflexivity. Defined.

Lemma contains_append (c : ascii) (x y : string) :
  Spec.contains c (String.append x y)
  = Spec.contains c x || Spec.contains c y.
Proof.
  induction x as [|a x IH]; [reflexivity|].
  rewrite append_cons, !contains_cons, IH. now rewrite orb_assoc.
Qed.

Lemma escape_body_append (x y : string) :
  Spec.escape_body (String.append x y)
  = String.append (Spec.escape_body x) (Spec.escape_body y).
Proof.
  induction x as [|a x IH]; [reflexivity|].
  rewrite append_cons. cbn [Spec.escape_body]. now rewrite IH, append_assoc.
Qed.

(** X3. On arguments without a space, escaping goes through
    concatenation: the escaped form of [x ++ y] is the escaped form of
    [x] followed by that of [y]. *)
Theorem GetEscapedArgument_append (x y : string) :
  Spec.contains space x = false ->
  Spec.contains space y = false ->
  launcher.GetEscapedArgument (String.append x y)
  = String.append (launcher.GetEscapedArgument x)
      (launcher.GetEscapedArgument y).
Proof.
  intros Hx Hy.
  assert (Hxy : Spec.contains space (String.append x y) = false)
    by now rewrite contains_append, Hx, Hy.
  unfold launcher.GetEscapedArgument.
  rewrite (has_space_false _ Hx), (has_space_false _ Hy),
    (has_space_false _ Hxy), !GetEscapedArgument_loop_body, !append_empty_l.
  apply escape_body_append.
Qed.

Lemma GetEscapedArgument_append_witness :
  launcher.GetEscapedArgument (String.append "--out=" "C:\tmp")
  = String.append (launcher.GetEscapedArgument "--out=")
      (launcher.GetEscapedArgument "C:\tmp").
Proof. apply (GetEscapedArgument_append "--out=" "C:\tmp"); reflexivity. Defined.

(** X4. Only the empty argument escapes to the empty string: an empty
    argument is not quoted, and nothing else disappears. *)
Theorem GetEscapedArgument_empty (x : string) :
  launcher.GetEscapedArgument x = EmptyString <-> x = EmptyString.
Proof.
  split; [|now intros ->].
  unfold launcher.GetEscapedArgument.
  rewrite GetEscapedArgument_loop_body. unfold Cxx.put_char.
  intros H. apply (f_equal String.length) in H.
  pose proof (escape_body_length x) as Hb.
  destruct (negb (Cxx.find_first_of x space =? Cxx.npos));
    rewrite ?length_append in H; cbn [String.length] in H.
  - lia.
  - destruct x; [reflexivity|]. cbn [String.length] in Hb. lia.
Qed.

End EscapingFurther.

(** ** The executable suffix: how the two helpers compose *)

Section BinaryPathFurther.

(** X5. Stripping undoes appending the suffix: for every path [p], also
    one that itself ends in [.exe],
    [GetBinaryPathWithoutExtension (p ++ ".exe") = p]; a single call
    removes a single suffix. *)
Theorem GetBinaryPathWithoutExtension_after_append (p : string) :
  Cxx.representable (String.append p ".exe") ->
  launcher.GetBinaryPathWithoutExtension (String.append p ".exe") = p.
Proof. apply GetBinaryPathWithoutExtension_append. Qed.

Lemma GetBinaryPathWithoutExtension_after_append_witness :
  launcher.GetBinaryPathWithoutExtension (String.append "a.exe" ".exe")
  = "a.exe".
Proof.
  apply (GetBinaryPathWithoutExtension_after_append "a.exe"). reflexivity.
Defined.

(** X6. [GetBinaryPathWithExtension] is idempotent: adding the suffix to
    a path that went through it changes nothing. *)
Theorem GetBinaryPathWithExtension_idempotent (p : string) :
  Cxx.representable (launcher.GetBinaryPathWithExtension p) ->
  launcher.GetBinaryPathWithExtension (launcher.GetBinaryPathWithExtension p)
  = launcher.GetBinaryPathWithExtension p.
Proof.
  intros Hp. unfold launcher.GetBinaryPathWithExtension at 1.
  unfold launcher.GetBinaryPathWithExtension in Hp |- * at 1.
  now rewrite (GetBinaryPathWithoutExtension_append _ Hp).
Qed.

Lemma GetBinaryPathWithExtension_idempotent_witness :
  launcher.GetBinaryPathWithExtension
    (launcher.GetBinaryPathWithExtension "bazel-bin/tool")
  = launcher.GetBinaryPathWithExtension "bazel-bin/tool".
Proof.
  apply (GetBinaryPathWithExtension_idempotent "bazel-bin/tool"). reflexivity.
Defined.

(** X7. [GetBinaryPathWithoutExtension] takes away nothing but a
    trailing [.exe]: the path is either returned as it is, or it is the
    result followed by [.exe]. *)
Theorem GetBinaryPathWithoutExtension_prefix (p : string) :
  Cxx.representable p ->
  launcher.GetBinaryPathWithoutExtension p = p
  \/ p = String.append (launcher.GetBinaryPathWithoutExtension p) ".exe".
Proof.
  intros Hp. rewrite (GetBinaryPathWithoutExtension_strip p Hp).
  unfold Spec.strip. destruct (Spec.has_exe_suffix p) eqn:Hsuf.
  - right. now apply has_exe_suffix_iff.
  - now left.
Qed.

Lemma GetBinaryPathWithoutExtension_prefix_witness :
  launcher.GetBinaryPathWithoutExtension "x/y.exe" = "x/y.exe"
  \/ "x/y.exe"
     = String.append (launcher.GetBinaryPathWithoutExtension "x/y.exe") ".exe".
Proof. apply (GetBinaryPathWithoutExtension_prefix "x/y.exe"). reflexivity. Defined.

(** X8. Whatever the path, the result of [GetBinaryPathWithExtension]
    ends in [.exe], so it has at least four characters and
    [GetBinaryPathWithoutExtension] will strip it. *)
Theorem GetBinaryPathWithExtension_has_suffix (p : string) :
  Spec.has_exe_suffix (launcher.GetBinaryPathWithExtension p) = true
  /\ 4 <= Cxx.size (launcher.GetBinaryPathWithExtension p).
Proof.
  unfold launcher.GetBinaryPathWithExtension. split.
  - apply has_exe_suffix_append.
  - unfold Cxx.size. rewrite length_append. cbn [String.length]. lia.
Qed.

End BinaryPathFurther.

(** ** GetEnv, SetEnv: the out-parameter, other variables, the invariant *)

Section EnvironmentFurther.

(** X9. Whenever [GetEnv] answers false it has not touched the caller's
    string. *)
Theorem GetEnv_false_keeps_value (name old v : string)
    (env : Win32.environment) :
  launcher.GetEnv name old env = Value (false, v) -> v = old.
Proof.
  unfold launcher.GetEnv.
  destruct (Win32.GetEnvironmentVariableA (Cxx.c_str name)
              launcher.BUFFER_SIZE env) as [stored buffer].
  destruct (stored =? 0); [now intros [= <-]|].
  destruct buffer; discriminate.
Qed.

Lemma GetEnv_false_keeps_value_witness : "stale" = "stale".
Proof.
  apply (GetEnv_false_keeps_value "HOME" "stale" "stale"
           Win32.empty_environment).
  reflexivity.
Defined.

(** X10. [SetEnv] touches one variable only. The platform matches
    names without regard to letter case, so take two names made of
    ASCII characters that differ even when case is ignored: whether
    [SetEnv] on the one succeeds or not, [GetEnv] on the other answers
    as it did before. *)
Theorem SetEnv_other_variable (name v other old : string) (ok : bool)
    (env env' : Win32.environment) :
  launcher.SetEnv name v env = (ok, env') ->
  Win32.is_ascii (Cxx.c_str name) = true ->
  Win32.is_ascii (Cxx.c_str other) = true ->
  Win32.fold_case (Cxx.c_str other) <> Win32.fold_case (Cxx.c_str name) ->
  launcher.GetEnv other old env' = launcher.GetEnv other old env.
Proof.
  unfold launcher.SetEnv, Win32.SetEnvironmentVariableA.
  destruct (Win32.accepts env (Cxx.c_str name) (Cxx.c_str v));
    intros [= <- <-] _ _ Hne; [|reflexivity].
  unfold launcher.GetEnv, Win32.GetEnvironmentVariableA.
  cbn [Win32.variables]. rewrite lookup_insert_ne by congruence. reflexivity.
Qed.

(** Names that differ in letter case only fold to the same form, so the
    statement above does not speak of them. *)
Example fold_case_path :
  Win32.fold_case (Cxx.c_str "path") = Win32.fold_case (Cxx.c_str "PATH").
Proof. reflexivity. Qed.

Lemma SetEnv_other_variable_witness :
  launcher.GetEnv "PATH" EmptyString
    (snd (launcher.SetEnv "JAVA_HOME" "C:\jdk" Win32.empty_environment))
  = launcher.GetEnv "PATH" EmptyString Win32.empty_environment.
Proof.
  apply (SetEnv_other_variable "JAVA_HOME" "C:\jdk" "PATH" EmptyString true
           Win32.empty_environment).
  - reflexivity.
  - reflexivity.
  - reflexivity.
  - discriminate.
Defined.

(** [SetEnv] keeps every value a C string. *)
Lemma SetEnv_preserves_c_strings (name v : string) (ok : bool)
    (env env' : Win32.environment) :
  Win32.holds_c_strings env ->
  launcher.SetEnv name v env = (ok, env') ->
  Win32.holds_c_strings env'.
Proof.
  unfold launcher.SetEnv, Win32.SetEnvironmentVariableA. intros Hinv.
  destruct (Win32.accepts env (Cxx.c_str name) (Cxx.c_str v));
    intros [= <- <-]; [|assumption].
  intros k w. cbn [Win32.variables]. rewrite lookup_insert.
  destruct (decide (Cxx.c_str name = k)) as [_|_].
  - intros [= <-]. apply c_str_idempotent.
  - apply Hinv.
Qed.

Lemma empty_environment_holds_c_strings :
  Win32.holds_c_strings Win32.empty_environment.
Proof.
  intros k w. cbn [Win32.empty_environment Win32.variables].
  rewrite lookup_empty. discriminate.
Qed.

(** X11. [SetEnv] keeps the environment free of NULs: if every value in
    the block is a C string before the call, so is every value after
    it, whatever the [std::string] passed. *)
Theorem SetEnv_holds_c_strings (name v : string) (ok : bool)
    (env env' : Win32.environment) :
  Win32.holds_c_strings env ->
  launcher.SetEnv name v env = (ok, env') ->
  Win32.holds_c_strings env'.
Proof. apply SetEnv_preserves_c_strings. Qed.

Lemma SetEnv_holds_c_strings_witness :
  Win32.holds_c_strings
    (snd (launcher.SetEnv "X" (String "a" (String NUL "b"))
            Win32.empty_environment)).
Proof.
  apply (SetEnv_holds_c_strings "X" (String "a" (String NUL "b")) true
           Win32.empty_environment).
  - exact empty_environment_holds_c_strings.
  - reflexivity.
Defined.

(** X12. What a successful [GetEnv] hands out when the stored value
    fits the buffer: if the variable holds a value [w] of fewer than
    32767 characters (in an environment whose values are C strings) and
    [GetEnv] answers true, the string it hands out is [w], and it is not
    empty. (A value that does not fit is the subject of X13.) *)
Theorem GetEnv_success (name old v w : string) (env : Win32.environment) :
  Win32.holds_c_strings env ->
  Win32.variables env !! Cxx.c_str name = Some w ->
  Cxx.size w < launcher.BUFFER_SIZE ->
  launcher.GetEnv name old env = Value (true, v) ->
  v = w /\ v <> EmptyString.
Proof.
  intros Hinv Hw Hfit. unfold launcher.GetEnv, Win32.GetEnvironmentVariableA.
  rewrite Hw.
  destruct (Z.ltb_spec (Cxx.size w) launcher.BUFFER_SIZE) as [_|?]; [|lia].
  destruct (Z.eqb_spec (Cxx.size w) 0) as [_|Hne]; [discriminate|].
  intros [= <-]. rewrite (Hinv _ _ Hw). split; [reflexivity|].
  intros ->. now apply Hne.
Qed.

Lemma GetEnv_success_witness :
  "C:\t" = "C:\t" /\ "C:\t" <> EmptyString.
Proof.
  apply (GetEnv_success "TMP" EmptyString "C:\t" "C:\t"
           (snd (launcher.SetEnv "TMP" "C:\t" Win32.empty_environment))).
  - apply (SetEnv_preserves_c_strings "TMP" "C:\t" true
             Win32.empty_environment).
    + exact empty_environment_holds_c_strings.
    + reflexivity.
  - vm_compute. reflexivity.
  - reflexivity.
  - vm_compute. reflexivity.
Defined.

(** X13. The buffer bound: when the value stored under the name has
    32767 characters or more, the platform call stores nothing and
    answers the size it would need, which is not 0; [GetEnv] takes that
    for success and copies from the buffer it never had filled, so the
    call has no defined result (it does not answer false). *)
Theorem GetEnv_value_too_long (name old v : string)
    (env : Win32.environment) :
  Win32.variables env !! Cxx.c_str name = Some v ->
  launcher.BUFFER_SIZE <= Cxx.size v ->
  launcher.GetEnv name old env = Undefined.
Proof. apply GetEnv_too_long. Qed.

Lemma length_repeat_string (c : ascii) (n : nat) :
  String.length (String.string_of_list_ascii (repeat c n)) = n.
Proof.
  induction n as [|n IH]; [reflexivity|].
  cbn [repeat String.string_of_list_ascii String.length]. now rewrite IH.
Qed.

Lemma GetEnv_value_too_long_witness :
  launcher.GetEnv "BIG" EmptyString
    {| Win32.variables :=
         {[ "BIG" := String.string_of_list_ascii
                       (repeat space (Z.to_nat 32767)) ]};
       Win32.accepts := fun _ _ => true |}
  = Undefined.
Proof.
  apply (GetEnv_value_too_long "BIG" EmptyString
           (String.string_of_list_ascii (repeat space (Z.to_nat 32767)))).
  - change (Cxx.c_str "BIG") with "BIG". cbn [Win32.variables].
    apply lookup_singleton_eq.
  - unfold Cxx.size, launcher.BUFFER_SIZE. rewrite length_repeat_string. lia.
Defined.

End EnvironmentFurther.

(** ** GetRandomStr: splitting a call, and what the result depends on *)

Section RandomNamesFurther.

(** The loop does not look at what is already in the stream. *)
Lemma GetRandomStr_loop_acc (n : nat) (acc : Cxx.ostringstream)
    (g : Win32.random_source) :
  launcher.GetRandomStr_loop n acc g
  = match launcher.GetRandomStr_loop n EmptyString g with
    | (Value s, g') => (Value (String.append acc s), g')
    | (Undefined, g') => (Undefined, g')
    end.
Proof.
  revert acc g. induction n as [|n IH]; intros acc g.
  - cbn [launcher.GetRandomStr_loop]. now rewrite append_empty_r.
  - cbn [launcher.GetRandomStr_loop]. unfold Win32.rand_s.
    destruct (Cxx.at_index launcher.alphabet _) as [c|]; [|reflexivity].
    rewrite (IH (Cxx.put_char acc c)), (IH (Cxx.put_char EmptyString c)).
    destruct (launcher.GetRandomStr_loop n EmptyString _) as [[s|] g'];
      [|reflexivity].
    unfold Cxx.put_char. now rewrite append_assoc.
Qed.

(** [m + n] rounds are [m] rounds followed by [n] rounds. *)
Lemma GetRandomStr_loop_add (m n : nat) (acc : Cxx.ostringstream)
    (g : Win32.random_source) :
  launcher.GetRandomStr_loop (m + n) acc g
  = match launcher.GetRandomStr_loop m acc g with
    | (Value s, g') => launcher.GetRandomStr_loop n s g'
    | (Undefined, g') => (Undefined, g')
    end.
Proof.
  revert acc g. induction m as [|m IH]; intros acc g; [reflexivity|].
  cbn [Nat.add launcher.GetRandomStr_loop]. unfold Win32.rand_s.
  destruct (Cxx.at_index launcher.alphabet _) as [c|]; [|reflexivity].
  apply IH.
Qed.

(** X14. One call for [m + n] characters gives what a call for [m]
    characters followed by a call for [n] characters gives, glued
    together, and leaves the random source in the same state. *)
Theorem GetRandomStr_add (m n : nat) (g : Win32.random_source) :
  exists (s1 s2 : string) (g1 g2 : Win32.random_source),
    launcher.GetRandomStr m g = (Value s1, g1)
    /\ launcher.GetRandomStr n g1 = (Value s2, g2)
    /\ launcher.GetRandomStr (m + n) g = (Value (String.append s1 s2), g2).
Proof.
  unfold launcher.GetRandomStr.
  destruct (GetRandomStr_loop_spec m EmptyString g) as (s1 & H1 & _).
  rewrite append_empty_l in H1.
  destruct (GetRandomStr_loop_spec n EmptyString
              {| Win32.draws := Win32.draws g;
                 Win32.drawn := (Win32.drawn g + m)%nat |})
    as (s2 & H2 & _).
  rewrite append_empty_l in H2.
  exists s1, s2. do 2 eexists. split; [exact H1|]. split; [exact H2|].
  rewrite GetRandomStr_loop_add, H1, GetRandomStr_loop_acc, H2. reflexivity.
Qed.

(** X15. The string depends only on the values drawn during the call,
    and on those only through their remainders modulo 62: two random
    sources whose next [len] values agree modulo 62 give the same
    string. *)
Theorem GetRandomStr_same_draws (len : nat) (g1 g2 : Win32.random_source) :
  (forall i : nat, (i < len)%nat ->
     Spec.draw g1 i mod 62 = Spec.draw g2 i mod 62) ->
  fst (launcher.GetRandomStr len g1) = fst (launcher.GetRandomStr len g2).
Proof.
  intros Hsame. unfold launcher.GetRandomStr.
  destruct (GetRandomStr_loop_spec len EmptyString g1) as (s1 & -> & Hl1 & Hg1).
  destruct (GetRandomStr_loop_spec len EmptyString g2) as (s2 & -> & Hl2 & Hg2).
  cbn [fst]. rewrite !append_empty_l. f_equal.
  apply String.get_correct. intros i.
  destruct (Nat.lt_ge_cases i len) as [Hi|Hi].
  - now rewrite (Hg1 i Hi), (Hg2 i Hi), (Hsame i Hi).
  - now rewrite !get_beyond by lia.
Qed.

Lemma GetRandomStr_same_draws_witness :
  fst (launcher.GetRandomStr 3
         {| Win32.draws := fun i => Z.of_nat i; Win32.drawn := 0 |})
  = fst (launcher.GetRandomStr 3
           {| Win32.draws := fun i => Z.of_nat i + 62; Win32.drawn := 0 |}).
Proof.
  apply (GetRandomStr_same_draws 3
           {| Win32.draws := fun i => Z.of_nat i; Win32.drawn := 0 |}
           {| Win32.draws := fun i => Z.of_nat i + 62; Win32.drawn := 0 |}).
  intros i Hi.
  destruct i as [|[|[|i]]]; [reflexivity..|lia].
Defined.

End RandomNamesFurther.

(** ** GetLastErrorString, PrintError and die *)

Section ReportingFurther.

(** X16. [GetLastErrorString] returns the empty string exactly when the
    last-error code is 0: an empty answer always means that nothing is
    pending. *)
Theorem GetLastErrorString_empty_iff (e : Win32.error_state) :
  launcher.GetLastErrorString e = Value EmptyString
  <-> Win32.GetLastError e = 0.
Proof.
  split; [|apply GetLastErrorString_no_error].
  intros H. destruct (Z.eq_dec (Win32.GetLastError e) 0) as [|Hne];
    [assumption | exfalso].
  destruct (Win32.messages e (Win32.GetLastError e)) as [text|] eqn:Hmsg.
  - destruct (GetLastErrorString_message e text Hne Hmsg) as (s & Hs & _ & Hnon).
    rewrite Hs in H. injection H as ->. now apply Hnon.
  - rewrite (GetLastErrorString_no_message e Hne Hmsg) in H. discriminate.
Qed.

(** X17. For a format string made of ordinary characters and [%s]
    conversions only, called with an argument for each conversion,
    [die] and [PrintError] write the same text, appended to what
    standard error already holds: the prefix [LAUNCHER ERROR: ], the
    formatted message and a newline. [PrintError] then returns to its
    caller; [die] ends the process with status 1. *)
Theorem die_PrintError (format : string) (ap : list string) (n : nat)
    (p : Proc.process) :
  Proc.conversions (Cxx.c_str format) = Some n ->
  (n <= length ap)%nat ->
  exists p' : Proc.process,
    launcher.PrintError format ap p = Proc.Returned tt p'
    /\ launcher.die format ap p = Proc.Exited 1 p'
    /\ Proc.stderr p'
       = String.append (Proc.stderr p)
           (String.append "LAUNCHER ERROR: "
              (String.append (Proc.format_text (Cxx.c_str format) ap)
                 (String newline EmptyString))).
Proof.
  intros _ _. eexists. split; [apply PrintError_returns|].
  split; [apply die_exits | reflexivity].
Qed.

Lemma die_PrintError_witness :
  exists p' : Proc.process,
    launcher.PrintError "Cannot launch process: %s" ["bin\tool.exe"]
      {| Proc.stderr := EmptyString |}
    = Proc.Returned tt p'
    /\ launcher.die "Cannot launch process: %s" ["bin\tool.exe"]
         {| Proc.stderr := EmptyString |}
       = Proc.Exited 1 p'
    /\ Proc.stderr p'
       = String.append (Proc.stderr {| Proc.stderr := EmptyString |})
           (String.append "LAUNCHER ERROR: "
              (String.append
                 (Proc.format_text (Cxx.c_str "Cannot launch process: %s")
                    ["bin\tool.exe"])
                 (String newline EmptyString))).
Proof.
  apply (die_PrintError "Cannot launch process: %s" ["bin\tool.exe"] 1).
  - reflexivity.
  - cbn [length]. lia.
Defined.

(** A format string without a percent sign is printed as it is,
    whatever the arguments. *)
Lemma format_text_plain (format : string) (ap : list string) :
  Spec.contains (Ascii.ascii_of_nat 37) format = false ->
  Proc.format_text format ap = format.
Proof.
  induction format as [|a rest IH]; [reflexivity|].
  rewrite contains_cons. intros [Ha Hrest]%orb_false_iff.
  cbn [Proc.format_text]. destruct rest as [|b rest']; [reflexivity|].
  rewrite Ascii.eqb_sym in Ha. rewrite Ha. cbn [andb].
  now rewrite (IH Hrest).
Qed.

End ReportingFurther.

(** ** DoesFilePathExist, DoesDirectoryPathExist, DeleteFileByPath *)

Section FilePaths.

(** [blaze_util::AsAbsoluteWindowsPath], taken as given. *)
Variable convert : string -> launcher.wstring -> bool * launcher.wstring.

Lemma AsAbsoluteWindowsPath_exits (path : string) (p : Proc.process) :
  fst (convert path []) = false ->
  launcher.AsAbsoluteWindowsPath convert path p
  = Proc.Exited 1 (Spec.conversion_failed path p).
Proof.
  unfold launcher.AsAbsoluteWindowsPath.
  destruct (convert path []) as [converted wpath]. cbn [fst]. intros ->.
  cbn [negb]. unfold mbind, proc_bind, Proc.bind. rewrite die_exits.
  now rewrite conversion_message.
Qed.

Lemma AsAbsoluteWindowsPath_returns (path : string) (p : Proc.process) :
  fst (convert path []) = true ->
  launcher.AsAbsoluteWindowsPath convert path p
  = Proc.Returned (snd (convert path [])) p.
Proof.
  unfold launcher.AsAbsoluteWindowsPath.
  destruct (convert path []) as [converted wpath]. cbn [fst snd].
  now intros ->.
Qed.

Lemma DoesFilePathExist_returns (path : string) (fs : Win32.file_system)
    (p : Proc.process) :
  fst (convert path []) = true ->
  launcher.DoesFilePathExist convert path fs p
  = Proc.Returned
      (negb (Spec.attributes_of convert path fs
             =? Win32.INVALID_FILE_ATTRIBUTES)
       && (Z.land (Spec.attributes_of convert path fs)
             Win32.FILE_ATTRIBUTE_DIRECTORY =? 0))
      p.
Proof.
  intros Hc. unfold launcher.DoesFilePathExist, mbind, proc_bind, Proc.bind.
  now rewrite (AsAbsoluteWindowsPath_returns path p Hc).
Qed.

Lemma DoesDirectoryPathExist_returns (path : string)
    (fs : Win32.file_system) (p : Proc.process) :
  fst (convert path []) = true ->
  launcher.DoesDirectoryPathExist convert path fs p
  = Proc.Returned
      (negb (Spec.attributes_of convert path fs
             =? Win32.INVALID_FILE_ATTRIBUTES)
       && negb (Z.land (Spec.attributes_of convert path fs)
                  Win32.FILE_ATTRIBUTE_DIRECTORY =? 0))
      p.
Proof.
  intros Hc.
  unfold launcher.DoesDirectoryPathExist, mbind, proc_bind, Proc.bind.
  now rewrite (AsAbsoluteWindowsPath_returns path p Hc).
Qed.

(** What [DeleteFileByPath] does once the path is converted: it answers
    true and drops the entry when the path names a removable file, and
    answers false and changes nothing otherwise. *)
Lemma DeleteFileByPath_returns (path : string) (fs : Win32.file_system)
    (p : Proc.process) :
  fst (convert path []) = true ->
  launcher.DeleteFileByPath convert path fs p
  = Proc.Returned
      (if negb (Spec.attributes_of convert path fs
                =? Win32.INVALID_FILE_ATTRIBUTES)
          && (Z.land (Spec.attributes_of convert path fs)
                Win32.FILE_ATTRIBUTE_DIRECTORY =? 0)
          && Win32.removable fs (Cxx.w_c_str (snd (convert path [])))
       then (true,
             {| Win32.entries :=
                  delete (Cxx.w_c_str (snd (convert path [])))
                    (Win32.entries fs);
                Win32.removable := Win32.removable fs |})
       else (false, fs))
      p.
Proof.
  intros Hc. unfold launcher.DeleteFileByPath, mbind, proc_bind, Proc.bind.
  now rewrite (AsAbsoluteWindowsPath_returns path p Hc).
Qed.

Lemma DeleteFileByPath_exits (path : string) (fs : Win32.file_system)
    (p : Proc.process) :
  fst (convert path []) = false ->
  launcher.DeleteFileByPath convert path fs p
  = Proc.Exited 1 (Spec.conversion_failed path p).
Proof.
  intros Hc. unfold launcher.DeleteFileByPath, mbind, proc_bind, Proc.bind.
  now rewrite (AsAbsoluteWindowsPath_exits path p Hc).
Qed.

(** Once an entry is deleted the platform reports no attributes for
    it. *)
Lemma attributes_of_deleted (path : string) (fs : Win32.file_system) :
  Spec.attributes_of convert path
    {| Win32.entries :=
         delete (Cxx.w_c_str (snd (convert path []))) (Win32.entries fs);
       Win32.removable := Win32.removable fs |}
  = Win32.INVALID_FILE_ATTRIBUTES.
Proof.
  unfold Spec.attributes_of, Win32.GetFileAttributesW. cbn [Win32.entries].
  now rewrite lookup_delete_eq.
Qed.

(** X18. For a path the conversion resolves, both checks return
    without writing anything, they never both answer true, and one of
    them answers true exactly when the platform reports attributes for
    the path: what exists is a file or a directory, and what does not
    exist is neither. *)
Theorem file_or_directory (path : string) (fs : Win32.file_system)
    (p : Proc.process) :
  fst (convert path []) = true ->
  exists is_file is_directory : bool,
    launcher.DoesFilePathExist convert path fs p = Proc.Returned is_file p
    /\ launcher.DoesDirectoryPathExist convert path fs p
       = Proc.Returned is_directory p
    /\ is_file && is_directory = false
    /\ is_file || is_directory
       = negb (Spec.attributes_of convert path fs
               =? Win32.INVALID_FILE_ATTRIBUTES).
Proof.
  intros Hc. do 2 eexists.
  split; [apply (DoesFilePathExist_returns path fs p Hc)|].
  split; [apply (DoesDirectoryPathExist_returns path fs p Hc)|].
  destruct (Spec.attributes_of convert path fs
            =? Win32.INVALID_FILE_ATTRIBUTES);
    destruct (Z.land (Spec.attributes_of convert path fs)
                Win32.FILE_ATTRIBUTE_DIRECTORY =? 0);
    split; reflexivity.
Qed.


(** X20. When [DeleteFileByPath] answers true, the path named a file
    before the call ([DoesFilePathExist] was true) and names none after
    it ([DoesFilePathExist] is false); standard error is untouched. *)
Theorem DeleteFileByPath_success (path : string)
    (fs fs' : Win32.file_system) (p p' : Proc.process) :
  launcher.DeleteFileByPath convert path fs p = Proc.Returned (true, fs') p' ->
  p' = p
  /\ launcher.DoesFilePathExist convert path fs p = Proc.Returned true p
  /\ launcher.DoesFilePathExist convert path fs' p = Proc.Returned false p.
Proof.
  destruct (fst (convert path [])) eqn:Hc.
  - rewrite (DeleteFileByPath_returns path fs p Hc),
      !(DoesFilePathExist_returns path _ p Hc).
    destruct (negb (Spec.attributes_of convert path fs
                    =? Win32.INVALID_FILE_ATTRIBUTES)
              && (Z.land (Spec.attributes_of convert path fs)
                    Win32.FILE_ATTRIBUTE_DIRECTORY =? 0));
      cbn [andb]; [|discriminate].
    destruct (Win32.removable fs _); [|discriminate].
    intros [= <- <-]. split; [reflexivity|]. split; [reflexivity|].
    rewrite attributes_of_deleted, Z.eqb_refl. reflexivity.
  - rewrite (DeleteFileByPath_exits path fs p Hc). discriminate.
Qed.

(** X21. [DeleteFileByPath] never removes a directory: whatever it
    answers, [DoesDirectoryPathExist] answers for every path as it did
    before the call. *)
Theorem DeleteFileByPath_keeps_directories (path other : string)
    (fs fs' : Win32.file_system) (ok : bool) (p p' : Proc.process) :
  launcher.DeleteFileByPath convert path fs p = Proc.Returned (ok, fs') p' ->
  launcher.DoesDirectoryPathExist convert other fs' p
  = launcher.DoesDirectoryPathExist convert other fs p.
Proof.
  destruct (fst (convert path [])) eqn:Hc.
  - rewrite (DeleteFileByPath_returns path fs p Hc).
    destruct (negb (Spec.attributes_of convert path fs
                    =? Win32.INVALID_FILE_ATTRIBUTES)
              && (Z.land (Spec.attributes_of convert path fs)
                    Win32.FILE_ATTRIBUTE_DIRECTORY =? 0)) eqn:Hfile;
      cbn [andb]; [|now intros [= <- <- <-]].
    destruct (Win32.removable fs _); [|now intros [= <- <- <-]].
    intros [= <- <- <-].
    destruct (fst (convert other [])) eqn:Ho.
    + rewrite !(DoesDirectoryPathExist_returns other _ p Ho). f_equal.
      destruct (decide (Cxx.w_c_str (snd (convert path []))
                        = Cxx.w_c_str (snd (convert other [])))) as [E|E].
      * apply andb_true_iff in Hfile as [_ Hnd].
        pose proof (attributes_of_deleted path fs) as Hdel.
        unfold Spec.attributes_of in *. rewrite <- E, Hdel, Hnd, Z.eqb_refl.
        cbn [negb andb]. now rewrite andb_false_r.
      * unfold Spec.attributes_of, Win32.GetFileAttributesW.
        cbn [Win32.entries]. now rewrite lookup_delete_ne.
    + unfold launcher.DoesDirectoryPathExist, mbind, proc_bind, Proc.bind.
      now rewrite !(AsAbsoluteWindowsPath_exits other p Ho).
  - rewrite (DeleteFileByPath_exits path fs p Hc). discriminate.
Qed.

End FilePaths.

(** The path [C:\a], converted to itself, names a plain file in the
    first file system below and a directory in the second. *)
Lemma file_or_directory_witness :
  exists is_file is_directory : bool,
    launcher.DoesFilePathExist (fun _ _ => (true, [67; 58; 92; 97])) "C:\a"
      {| Win32.entries := {[ [67; 58; 92; 97] := 32 ]};
         Win32.removable := fun _ => true |}
      {| Proc.stderr := EmptyString |}
    = Proc.Returned is_file {| Proc.stderr := EmptyString |}
    /\ launcher.DoesDirectoryPathExist (fun _ _ => (true, [67; 58; 92; 97]))
         "C:\a"
         {| Win32.entries := {[ [67; 58; 92; 97] := 32 ]};
            Win32.removable := fun _ => true |}
         {| Proc.stderr := EmptyString |}
       = Proc.Returned is_directory {| Proc.stderr := EmptyString |}
    /\ is_file && is_directory = false
    /\ is_file || is_directory
       = negb (Spec.attributes_of (fun _ _ => (true, [67; 58; 92; 97])) "C:\a"
                 {| Win32.entries := {[ [67; 58; 92; 97] := 32 ]};
                    Win32.removable := fun _ => true |}
               =? Win32.INVALID_FILE_ATTRIBUTES).
Proof.
  apply (file_or_directory (fun _ _ => (true, [67; 58; 92; 97])) "C:\a").
  reflexivity.
Defined.


Lemma DeleteFileByPath_success_witness :
  {| Proc.stderr := EmptyString |} = {| Proc.stderr := EmptyString |}
  /\ launcher.DoesFilePathExist (fun _ _ => (true, [67; 58; 92; 97])) "C:\a"
       {| Win32.entries := {[ [67; 58; 92; 97] := 32 ]};
          Win32.removable := fun _ => true |}
       {| Proc.stderr := EmptyString |}
     = Proc.Returned true {| Proc.stderr := EmptyString |}
  /\ launcher.DoesFilePathExist (fun _ _ => (true, [67; 58; 92; 97])) "C:\a"
       {| Win32.entries := delete [67; 58; 92; 97] {[ [67; 58; 92; 97] := 32 ]};
          Win32.removable := fun _ => true |}
       {| Proc.stderr := EmptyString |}
     = Proc.Returned false {| Proc.stderr := EmptyString |}.
Proof.
  apply (DeleteFileByPath_success (fun _ _ => (true, [67; 58; 92; 97])) "C:\a").
  reflexivity.
Defined.

Lemma DeleteFileByPath_keeps_directories_witness :
  launcher.DoesDirectoryPathExist (fun _ _ => (true, [67; 58; 92; 97])) "C:\b"
    {| Win32.entries := delete [67; 58; 92; 97] {[ [67; 58; 92; 97] := 32 ]};
       Win32.removable := fun _ => true |}
    {| Proc.stderr := EmptyString |}
  = launcher.DoesDirectoryPathExist (fun _ _ => (true, [67; 58; 92; 97])) "C:\b"
      {| Win32.entries := {[ [67; 58; 92; 97] := 32 ]};
         Win32.removable := fun _ => true |}
      {| Proc.stderr := EmptyString |}.
Proof.
  apply (DeleteFileByPath_keeps_directories
           (fun _ _ => (true, [67; 58; 92; 97])) "C:\a" "C:\b" _ _ true
           _ {| Proc.stderr := EmptyString |}).
  reflexivity.
Defined.
